(** * edp-gmail-invoices: a shallow embedding of [main.go]

    The program authenticates against Gmail, walks the pages of a message
    search, derives a file name prefix per message from its date and
    subject, and stores the invoice attachments and the raw message.

    Go strings are byte sequences: they are embedded as [string] (a
    sequence of 8-bit [ascii]).  Go maps are [gmap]s.  The outside world
    (file system faults, the YAML and JSON libraries, the OAuth exchange,
    the Gmail endpoints, the local time zone) is a record [Env] of
    oracles; the program threads a [State] made of the files on disk, the
    list-messages responses still to come and the trace of what it
    printed and requested. *)

From Stdlib Require Import ZArith Ascii List Lia Bool Sorted.
From Stdlib Require String.
From stdpp Require Import gmap strings list.

Local Open Scope Z_scope.
Set Warnings "-clear-no-such-hyp".

(** ** Strings *)

Module Str.

(** [strings.HasPrefix] together with the remainder after the prefix. *)
Fixpoint stripPrefix (p s : string) : option string :=
  match p, s with
  | EmptyString, _ => Some s
  | String a p', String b s' =>
      if decide (a = b) then stripPrefix p' s' else None
  | String _ _, EmptyString => None
  end.

(** The ASCII decimal digits, the class [\d] of Go's [regexp]. *)
Definition isDigit (c : ascii) : bool :=
  let n := N_of_ascii c in ((48 <=? n) && (n <=? 57))%N.

(** All characters of [s] satisfy [f]. *)
Fixpoint all (f : ascii → bool) (s : string) : bool :=
  match s with
  | EmptyString => true
  | String c s' => f c && all f s'
  end.

(** Some character of [s] satisfies [f]. *)
Fixpoint any (f : ascii → bool) (s : string) : bool :=
  match s with
  | EmptyString => false
  | String c s' => f c || any f s'
  end.

(** The longest prefix of digits of [s], and what follows it. *)
Fixpoint digitRun (s : string) : string * string :=
  match s with
  | String c s' =>
      if isDigit c
      then let '(d, r) := digitRun s' in (String c d, r)
      else (EmptyString, s)
  | EmptyString => (EmptyString, EmptyString)
  end.

(** [strings.Join]. *)
Fixpoint join (l : list string) (sep : string) : string :=
  match l with
  | [] => ""
  | [x] => x
  | x :: l' => x +:+ sep +:+ join l' sep
  end.

Definition quote : ascii := ascii_of_nat 34.
Definition space : ascii := " "%char.
Definition colon : ascii := ":"%char.
Definition cr : ascii := ascii_of_nat 13.
Definition lf : ascii := ascii_of_nat 10.

End Str.

(** ** The two regular expressions of [main] *)

(** [contractSubjectRegex] is [\(contrato (\d+)\)].  Anchored at the start
    of [s] it reads the literal ["(contrato "], then the greedy digit run
    and then [")"].  The run never has to give a digit back: what follows a
    shorter run is a digit, not [")"].  The result is the matched text and
    the text of group 1. *)
Definition contractSubjectRegex_at (s : string) : option (string * string) :=
  match Str.stripPrefix "(contrato " s with
  | Some r =>
      match Str.digitRun r with
      | (String c d, String b _) =>
          if decide (b = ")"%char)
          then Some ("(contrato " +:+ String c d +:+ ")", String c d)
          else None
      | _ => None
      end
  | None => None
  end.

(** [contractSubjectRegex.FindStringSubmatch]: the leftmost match, as the
    slice of the matched text and of group 1; [nil] when nothing matches. *)
Fixpoint contractSubjectRegex_FindStringSubmatch (s : string) : list string :=
  match contractSubjectRegex_at s with
  | Some (whole, group1) => [whole; group1]
  | None =>
      match s with
      | EmptyString => []
      | String _ s' => contractSubjectRegex_FindStringSubmatch s'
      end
  end.

(** [invoiceFilenameRegex] is [^\d+\.pdf$]; without the [m] flag [$] is
    the end of the text. *)
Definition invoiceFilenameRegex_MatchString (s : string) : bool :=
  match Str.digitRun s with
  | (String _ _, r) => bool_decide (r = ".pdf")
  | _ => false
  end.

(** ** Configuration *)

Record Configuration := mkConfiguration {
  Contracts : gmap string string  (* contract-id: alias *)
}.

(** [&Configuration{}]: the map is nil, every lookup misses. *)
Definition emptyConfiguration : Configuration := mkConfiguration ∅.

(** Lines 268-277 of [main]: the file name prefix of a message. *)
Definition filenamePrefix (configuration : Configuration)
    (date id subject : string) : string :=
  let matches := contractSubjectRegex_FindStringSubmatch subject in
  if bool_decide (1 < length matches)%nat then
    let contract := nth 1 matches "" in
    let filenamePrefix := date +:+ "-edp-" +:+ contract in
    match Contracts configuration !! contract with
    | Some alias => filenamePrefix +:+ "-" +:+ alias
    | None => filenamePrefix
    end
  else date +:+ "-" +:+ id.

(** ** Package [time], as far as [formatDate] uses it *)

Module GoTime.

(** [time.Unix(sec, nsec)]: the seconds and nanoseconds since the epoch,
    with [nsec] brought into [[0, 1e9)].  Go's [/] truncates towards
    zero ([Z.quot]). *)
Definition Unix (sec nsec : Z) : Z * Z :=
  if (nsec <? 0) || (1000000000 <=? nsec) then
    let n := Z.quot nsec 1000000000 in
    let sec := sec + n in
    let nsec := nsec - n * 1000000000 in
    if nsec <? 0 then (sec - 1, nsec + 1000000000) else (sec, nsec)
  else (sec, nsec).

(** The proleptic Gregorian date (year, month, day) of a day counted from
    1970-01-01, which is what [Time.Date] computes from the absolute
    seconds of a [Time]. *)
Definition civil (days : Z) : Z * Z * Z :=
  let z := days + 719468 in
  let era := z / 146097 in
  let doe := z - era * 146097 in
  let yoe := (doe - doe / 1460 + doe / 36524 - doe / 146096) / 365 in
  let doy := doe - (365 * yoe + yoe / 4 - yoe / 100) in
  let mp := (5 * doy + 2) / 153 in
  let d := doy - (153 * mp + 2) / 5 + 1 in
  let m := if mp <? 10 then mp + 3 else mp - 9 in
  let y := yoe + era * 400 + (if m <=? 2 then 1 else 0) in
  (y, m, d).

Definition digitChar (d : Z) : ascii := ascii_of_N (Z.to_N (48 + d)).

(** The decimal digits of [u >= 0] in front of [acc]. *)
Fixpoint digitsAcc (fuel : nat) (u : Z) (acc : string) : string :=
  match fuel with
  | O => acc
  | S fuel' =>
      let acc' := String (digitChar (u mod 10)) acc in
      if u / 10 =? 0 then acc' else digitsAcc fuel' (u / 10) acc'
  end.

Definition decimal (u : Z) : string :=
  digitsAcc (S (Z.to_nat (Z.log2 u))) u "".

Fixpoint zeros (n : nat) : string :=
  match n with O => "" | S n' => String "0"%char (zeros n') end.

(** [appendInt(b, x, width)]: a minus sign for a negative [x], then its
    magnitude padded with zeros to [width] digits. *)
Definition appendInt (x : Z) (width : nat) : string :=
  let ds := decimal (Z.abs x) in
  (if x <? 0 then "-" else "") +:+ zeros (width - String.length ds) +:+ ds.

(** The wall-clock date of the instant [sec] in the zone whose offset
    (seconds east of UTC) at [sec] is [offset sec]. *)
Definition localDate (offset : Z → Z) (sec : Z) : Z * Z * Z :=
  civil ((sec + offset sec) / 86400).

(** [t.Format("2006-01-02")] for [t] in the local zone. *)
Definition Format_2006_01_02 (offset : Z → Z) (t : Z * Z) : string :=
  let '(y, m, d) := localDate offset (fst t) in
  appendInt y 4 +:+ "-" +:+ appendInt m 2 +:+ "-" +:+ appendInt d 2.

End GoTime.

(** [formatDate] formats the Unix timestamp in milliseconds to YYYY-MM-DD.
    [time.Unix] yields a time in the local zone, whose offsets are [tz].
    Go's [%] has the sign of the dividend ([Z.rem]). *)
Definition formatDate (tz : Z → Z) (internalDateMs : Z) : string :=
  let t := GoTime.Unix (Z.quot internalDateMs 1000)
                       (Z.rem internalDateMs 1000 * 1000000) in
  GoTime.Format_2006_01_02 tz t.

(** The range of Go's [int64]. *)
Definition int64 (x : Z) : Prop := -2^63 <= x < 2^63.

(** ** Package [encoding/base64]: [URLEncoding.DecodeString] *)

Module Base64.

(** The URL-safe alphabet: [A-Z], [a-z], [0-9], [-] and [_]. *)
Definition decodeMap (c : ascii) : option Z :=
  let n := Z.of_N (N_of_ascii c) in
  if (65 <=? n) && (n <=? 90) then Some (n - 65)
  else if (97 <=? n) && (n <=? 122) then Some (n - 97 + 26)
  else if (48 <=? n) && (n <=? 57) then Some (n - 48 + 52)
  else if n =? 45 then Some 62
  else if n =? 95 then Some 63
  else None.

Definition padChar : ascii := "="%char.

Definition byte (v : Z) : ascii := ascii_of_N (Z.to_N (v mod 256)).

Definition val (a b c d : Z) : Z :=
  Z.lor (Z.lor (Z.shiftl a 18) (Z.shiftl b 12)) (Z.lor (Z.shiftl c 6) d).

Definition isNewline (c : ascii) : bool :=
  bool_decide (c = Str.cr ∨ c = Str.lf).

(** The decoder skips carriage returns and line feeds wherever they
    stand. *)
Fixpoint stripNewlines (s : string) : string :=
  match s with
  | EmptyString => EmptyString
  | String c s' =>
      if isNewline c then stripNewlines s' else String c (stripNewlines s')
  end.

(** Quanta of four characters; padding is required and closes the
    input; leftover bits of a padded quantum are not checked (the
    encoding is not strict). *)
Fixpoint decodeQuanta (src : string) : option string :=
  match src with
  | EmptyString => Some EmptyString
  | String a (String b (String c (String d rest))) =>
      match decodeMap a, decodeMap b with
      | Some va, Some vb =>
          match decodeMap c, decodeMap d with
          | Some vc, Some vd =>
              let v := val va vb vc vd in
              match decodeQuanta rest with
              | Some out =>
                  Some (String (byte (Z.shiftr v 16))
                         (String (byte (Z.shiftr v 8)) (String (byte v) out)))
              | None => None
              end
          | Some vc, None =>
              if decide (d = padChar ∧ rest = EmptyString)
              then let v := val va vb vc 0 in
                   Some (String (byte (Z.shiftr v 16))
                          (String (byte (Z.shiftr v 8)) EmptyString))
              else None
          | None, _ =>
              if decide (c = padChar ∧ d = padChar ∧ rest = EmptyString)
              then let v := val va vb 0 0 in
                   Some (String (byte (Z.shiftr v 16)) EmptyString)
              else None
          end
      | _, _ => None
      end
  | _ => None
  end.

(** [base64.URLEncoding.DecodeString]; [None] is a [CorruptInputError]. *)
Definition DecodeString (s : string) : option string :=
  decodeQuanta (stripNewlines s).

End Base64.

(** ** [encodeQuery] *)

(** [strings.ContainsAny(value, " :")]. *)
Definition containsSpaceOrColon (value : string) : bool :=
  Str.any (λ c, bool_decide (c = Str.space ∨ c = Str.colon)) value.

(** One trip through the loop body of [encodeQuery]. *)
Definition encodeEntry (queries : list string) (kv : string * string) : list string :=
  let '(key, value) := kv in
  if containsSpaceOrColon value
  then queries ++ [key +:+ ":" +:+ String Str.quote (value +:+ String Str.quote "")]
  else queries ++ [key +:+ ":" +:+ value].

(** [encodeQuery] once the [range] over the map has fixed the order
    [entries] in which it visits the map's entries. *)
Definition encodeQueryIn (entries : list (string * string)) : string :=
  Str.join (fold_left encodeEntry entries []) " ".

(** Go leaves the iteration order of a map unspecified: [encodeQuery] may
    return the encoding for any order of the entries of [params]. *)
Definition encodeQuery (params : gmap string string) (q : string) : Prop :=
  ∃ entries, entries ≡ₚ map_to_list params ∧ q = encodeQueryIn entries.

(** ** Data of the Gmail and OAuth2 client libraries *)

Record Token := mkToken {
  AccessToken : string;
  TokenType : string;
  RefreshToken : string;
  Expiry : Z
}.

Record OAuthConfig := mkOAuthConfig {
  ClientID : string;
  RedirectURL : string
}.

(** What [config.Client(ctx, tok)] is built from. *)
Record Client := mkClient {
  clientConfig : OAuthConfig;
  clientToken : Token
}.

Record MessagePartHeader := mkHeader {
  Name : string;
  Value : string
}.

Record MessagePartBody := mkBody {
  AttachmentId : string;
  Data : string
}.

(** A part of a message; a multipart part nests its children in [Parts]. *)
#[warnings="-register-all"]
Inductive MessagePart := mkPart {
  MimeType : string;
  Filename : string;
  Headers : list MessagePartHeader;
  Body : MessagePartBody;
  Parts : list MessagePart
}.

Record Message := mkMessage {
  Id : string;
  InternalDate : Z;
  Payload : MessagePart;
  Raw : string
}.

Record ListMessagesResponse := mkPage {
  Messages : list Message;
  NextPageToken : string
}.

(** ** Errors, the environment and the state *)

Inductive error :=
  | ErrNotExist                       (* the file does not exist *)
  | ErrFile                           (* any other failure of the file system *)
  | ErrYAML                           (* yaml.Unmarshal failed *)
  | ErrJSON                           (* the JSON decoder failed *)
  | CorruptInputError                 (* base64 *)
  | ErrProvider                       (* a Gmail call failed *)
  | Errorf (msg : string) (e : error) (* fmt.Errorf wrapping [e] *).

Inductive Res (A : Type) :=
  | Val (a : A)
  | Err (e : error).
Arguments Val {A} a.
Arguments Err {A} e.

(** What the file system does to an attempt to open or write a path. *)
Inductive Fault := NoFault | CannotOpen | CannotWrite.

Record Env := mkEnv {
  fault : string → Fault;
  yamlUnmarshal : string → option Configuration;   (* gopkg.in/yaml.v3 *)
  configFromJSON : string → option OAuthConfig;    (* google.ConfigFromJSON *)
  jsonDecodeToken : string → option Token;         (* json.Decoder.Decode *)
  jsonEncodeToken : Token → option string;         (* json.Encoder.Encode *)
  browserOpens : bool;                             (* xdg-open starts *)
  exchange : OAuthConfig → option Token;           (* consent, then config.Exchange *)
  newService : bool;                               (* gmail.NewService succeeds *)
  rangeOrder : gmap string string → list (string * string);
                                                   (* the order of a range over a map *)
  listResponses : list (option ListMessagesResponse);
                                                   (* answers to Messages.List, in order *)
  messagesGet : string → string → option Message;  (* Messages.Get(user, id).Format(f) *)
  attachmentsGet : string → string → option MessagePartBody;
                                                   (* Attachments.Get(user, id, attachmentId) *)
  localZone : Z → Z                                (* offset of time.Local *)
}.

(** What the program prints and requests. *)
Inductive Event :=
  | Stdout (line : string)
  | Progress (messageIndex : nat) (id date from subject : string)
  | Log (msg : string)
  | Authorize (config : OAuthConfig)
  | ListRequest (q : string) (pageToken : option string)
  | GetRequest (id format : string)
  | AttachmentRequest (id attachmentId : string).

(** The text of the progress line: [fmt.Printf] with ["#%08d %s %s %s: %s\n"]. *)
Definition progressLine (messageIndex : nat) (id date from subject : string) : string :=
  "#" +:+ GoTime.appendInt (Z.of_nat messageIndex) 8 +:+ " " +:+ id +:+ " " +:+ date
      +:+ " " +:+ from +:+ ": " +:+ subject +:+ String Str.lf "".

Record State := mkState {
  files : gmap string string;
  trace : list Event
}.

(** How a computation ends: it returns, it exits through [log.Fatalf], or
    it waits for an answer that never comes. *)
Inductive Result (A : Type) :=
  | Done (a : A)
  | Fatal
  | Hung.
Arguments Done {A} a.
Arguments Fatal {A}.
Arguments Hung {A}.

Definition Run (A : Type) : Type := State → Result A * State.

#[global] Instance Run_ret : MRet Run := λ A a st, (Done a, st).

#[global] Instance Run_bind : MBind Run := λ A B f m st,
  match m st with
  | (Done a, st') => f a st'
  | (Fatal, st') => (Fatal, st')
  | (Hung, st') => (Hung, st')
  end.

Definition emit (e : Event) : Run unit :=
  λ st, (Done tt, mkState (files st) (trace st ++ [e])).

(** [log.Fatalf]. *)
Definition fatalf {A} (msg : string) : Run A :=
  λ st, (Fatal, mkState (files st) (trace st ++ [Log msg])).

Definition hang {A} : Run A := λ st, (Hung, st).

(** [os.ReadFile], and [os.Open] followed by reading the file. *)
Definition ReadFile (env : Env) (name : string) : Run (Res string) :=
  λ st,
    match files st !! name with
    | None => (Done (Err ErrNotExist), st)
    | Some data =>
        match fault env name with
        | CannotOpen => (Done (Err ErrFile), st)
        | _ => (Done (Val data), st)
        end
    end.

(** [os.WriteFile]: the file is created or truncated when it is opened,
    and holds [data] when the write succeeds. *)
Definition WriteFile (env : Env) (name data : string) : Run (option error) :=
  λ st,
    match fault env name with
    | CannotOpen => (Done (Some ErrFile), st)
    | CannotWrite => (Done (Some ErrFile), mkState (<[name := ""]> (files st)) (trace st))
    | NoFault => (Done None, mkState (<[name := data]> (files st)) (trace st))
    end.

(** [os.IsNotExist]. *)
Definition IsNotExist (e : error) : bool :=
  match e with ErrNotExist => true | _ => false end.

(** ** The functions of [main.go] *)

(** [getConfiguration] loads YAML data from a file and returns a
    Configuration object. *)
Definition getConfiguration (env : Env) (filename : string) : Run (Res Configuration) :=
  r ← ReadFile env filename;
  match r with
  | Err err =>
      if IsNotExist err then mret (Val emptyConfiguration)
      else mret (Err (Errorf "error reading file" err))
  | Val yamlData =>
      match yamlUnmarshal env yamlData with
      | None => mret (Err (Errorf "error unmarshaling YAML" ErrYAML))
      | Some config => mret (Val config)
      end
  end.

Definition tokenFromFile (env : Env) (file : string) : Run (Res Token) :=
  r ← ReadFile env file;
  match r with
  | Err err => mret (Err err)
  | Val content =>
      match jsonDecodeToken env content with
      | None => mret (Err ErrJSON)
      | Some tok => mret (Val tok)
      end
  end.

(** [os.OpenFile(path, O_RDWR|O_CREATE|O_TRUNC, 0600)]: an opened file is
    empty. *)
Definition OpenFile_create_trunc (env : Env) (path : string) : Run (option error) :=
  λ st,
    match fault env path with
    | CannotOpen => (Done (Some ErrFile), st)
    | _ => (Done None, mkState (<[path := ""]> (files st)) (trace st))
    end.

(** [json.NewEncoder(f).Encode(token)] on the file just opened at [path]:
    the JSON text and a newline are written, unless the encoding or the
    write fails. *)
Definition Encode (env : Env) (path : string) (token : Token) : Run (option error) :=
  λ st,
    match jsonEncodeToken env token with
    | None => (Done (Some ErrJSON), st)
    | Some json =>
        match fault env path with
        | NoFault =>
            (Done None,
             mkState (<[path := json +:+ String Str.lf ""]> (files st)) (trace st))
        | _ => (Done (Some ErrFile), st)
        end
    end.

(** [saveToken]: what [Encode] returns is dropped. *)
Definition saveToken (env : Env) (path : string) (token : Token) : Run unit :=
  emit (Stdout ("Saving credential file to: " +:+ path +:+ String Str.lf "")) ;;
  err ← OpenFile_create_trunc env path;
  match err with
  | Some _ => fatalf "Unable to cache oauth token"
  | None => _ ← Encode env path token; mret tt
  end.

(** [getTokenFromWeb]: the browser is sent to the consent page, the
    callback delivers the code and the code is exchanged for a token. *)
Definition getTokenFromWeb (env : Env) (config : OAuthConfig) : Run Token :=
  emit (Authorize config) ;;
  emit (Log "Opening browser for authorization") ;;
  (if browserOpens env then mret tt
   else emit (Log "Unable to open browser automatically") ;;
        emit (Stdout "Please open the following URL in your browser")) ;;
  match exchange env config with
  | None => fatalf "Unable to retrieve token from web"
  | Some tok => mret tok
  end.

(** [getClient] retrieves a token, saves the token, then returns the
    generated client. *)
Definition getClient (env : Env) (config : OAuthConfig) : Run Client :=
  let tokFile := "token.json" in
  r ← tokenFromFile env tokFile;
  match r with
  | Err _ =>
      let config := mkOAuthConfig (ClientID config) "http://localhost:8080/oauth2/callback" in
      tok ← getTokenFromWeb env config;
      saveToken env tokFile tok ;;
      mret (mkClient config tok)
  | Val tok => mret (mkClient config tok)
  end.

Definition saveAttachment (env : Env) (filename : string) (part : MessagePartBody)
    : Run (option error) :=
  match Base64.DecodeString (Data part) with
  | None => mret (Some (Errorf "unable to decode attachment data" CorruptInputError))
  | Some data =>
      err ← WriteFile env filename data;
      match err with
      | Some e => mret (Some (Errorf "unable to write attachment file" e))
      | None => mret None
      end
  end.

Definition saveRawMessage (env : Env) (filename rawContent : string) : Run (option error) :=
  match Base64.DecodeString rawContent with
  | None => mret (Some (Errorf "unable to decode message content" CorruptInputError))
  | Some decodedContent =>
      err ← WriteFile env filename decodedContent;
      match err with
      | Some e => mret (Some (Errorf "unable to write raw message file" e))
      | None => mret None
      end
  end.

(** Lines 255-264 of [main]: the subject and the sender are the values of
    the last [Subject] and the last [From] header. *)
Definition scanHeaders (headers : list MessagePartHeader) : string * string :=
  fold_left
    (λ '(from, subject) header,
       if decide (Name header = "Subject") then (from, Value header)
       else if decide (Name header = "From") then (Value header, subject)
       else (from, subject))
    headers ("", "").

(** Lines 280-293 of [main]: one trip through the loop over the parts. *)
Definition processPart (env : Env) (id filenamePrefix : string) (part : MessagePart)
    : Run unit :=
  if decide (MimeType part = "application/pdf") then
    if invoiceFilenameRegex_MatchString (Filename part) then
      emit (AttachmentRequest id (AttachmentId (Body part))) ;;
      match attachmentsGet env id (AttachmentId (Body part)) with
      | None => emit (Log "Unable to retrieve message attachment")
      | Some attachMsg =>
          err ← saveAttachment env (filenamePrefix +:+ "-" +:+ Filename part) attachMsg;
          match err with
          | Some _ => emit (Log "Unable to save message attachment")
          | None => mret tt
          end
      end
    else mret tt
  else mret tt.

(** [for _, x := range l { f x }]. *)
Fixpoint forEach {A} (f : A → Run unit) (l : list A) : Run unit :=
  match l with
  | [] => mret tt
  | x :: l' => f x ;; forEach f l'
  end.

(** Lines 247-307 of [main]: one trip through the loop over the messages
    of a page, from the value of [messageIndex] before it to the value
    after it. *)
Definition processMessage (env : Env) (configuration : Configuration)
    (messageIndex : nat) (m : Message) : Run nat :=
  emit (GetRequest (Id m) "full") ;;
  match messagesGet env (Id m) "full" with
  | None => emit (Log "Unable to retrieve message") ;; mret messageIndex
  | Some msg =>
      let date := formatDate (localZone env) (InternalDate msg) in
      let '(from, subject) := scanHeaders (Headers (Payload msg)) in
      emit (Progress messageIndex (Id m) date from subject) ;;
      let filenamePrefix := filenamePrefix configuration date (Id m) subject in
      forEach (processPart env (Id m) filenamePrefix) (Parts (Payload msg)) ;;
      emit (GetRequest (Id m) "raw") ;;
      match messagesGet env (Id m) "raw" with
      | None => emit (Log "Unable to retrieve raw message") ;; mret messageIndex
      | Some rawMsg =>
          err ← saveRawMessage env (filenamePrefix +:+ ".eml") (Raw rawMsg);
          match err with
          | Some _ => emit (Log "Error saving message")
          | None => mret tt
          end ;;
          mret (S messageIndex)
      end
  end.

Fixpoint processMessages (env : Env) (configuration : Configuration)
    (messageIndex : nat) (ms : list Message) : Run nat :=
  match ms with
  | [] => mret messageIndex
  | m :: ms' =>
      messageIndex ← processMessage env configuration messageIndex m;
      processMessages env configuration messageIndex ms'
  end.

(** Lines 229-314 of [main]: the loop over the pages.  Every trip takes
    the next answer of the provider; the program waits when there is
    none. *)
Fixpoint scan (env : Env) (configuration : Configuration) (q : string)
    (responses : list (option ListMessagesResponse))
    (pageToken : string) (messageIndex : nat) : Run unit :=
  emit (ListRequest q (if decide (pageToken = "") then None else Some pageToken)) ;;
  match responses with
  | [] => hang
  | None :: _ => fatalf "Unable to retrieve messages"
  | Some r :: responses' =>
      if decide (length (Messages r) = 0%nat) then mret tt
      else
        messageIndex ← processMessages env configuration messageIndex (Messages r);
        if decide (NextPageToken r = "") then mret tt
        else scan env configuration q responses' (NextPageToken r) messageIndex
  end.

Definition searchParams : gmap string string :=
  {[ "from" := "faturaedp@edp.pt"; "has" := "attachment" ]}.

Definition main (env : Env) : Run unit :=
  r ← getConfiguration env "config.yaml";
  match r with
  | Err _ => fatalf "Unable to read the configuration"
  | Val configuration =>
      b ← ReadFile env "credentials.json";
      match b with
      | Err _ => fatalf "Unable to read client secret file"
      | Val b =>
          match configFromJSON env b with
          | None => fatalf "Unable to parse client secret file to config"
          | Some config =>
              client ← getClient env config;
              if newService env then
                let q := encodeQueryIn (rangeOrder env searchParams) in
                scan env configuration q (listResponses env) "" 0
              else fatalf "Unable to retrieve Gmail client"
          end
      end
  end.

(** ** Vocabulary of the statements *)

(** A non-empty string of decimal digits. *)
Definition Digits (ds : string) : Prop :=
  ds ≠ "" ∧ Str.all Str.isDigit ds = true.

(** The token ["(contrato <digits>)"] for the digits [ds]. *)
Definition contractToken (ds : string) : string := "(contrato " +:+ ds +:+ ")".

(** [s] starts with the token for [ds]. *)
Definition TokenAt (s ds : string) : Prop :=
  Digits ds ∧ ∃ post, s = contractToken ds +:+ post.

(** [s] contains a token somewhere. *)
Definition HasToken (s : string) : Prop :=
  ∃ pre rest ds, s = pre +:+ rest ∧ TokenAt rest ds.

(** [ds] are the digits of the first token of [s]: no token starts
    further to the left. *)
Definition FirstToken (s ds : string) : Prop :=
  ∃ pre rest,
    s = pre +:+ rest ∧ TokenAt rest ds ∧
    ∀ pre' rest' ds', s = pre' +:+ rest' → TokenAt rest' ds' →
      (String.length pre ≤ String.length pre')%nat.

(** One or more digits immediately followed by [".pdf"] and nothing else. *)
Definition InvoiceFilename (s : string) : Prop :=
  ∃ ds, Digits ds ∧ s = ds +:+ ".pdf".

(** The calendar year, in the local zone, of a timestamp in milliseconds. *)
Definition localYear (tz : Z → Z) (internalDateMs : Z) : Z :=
  (GoTime.localDate tz
     (GoTime.Unix (Z.quot internalDateMs 1000)
                  (Z.rem internalDateMs 1000 * 1000000)).1).1.1.

Definition isHyphen (c : ascii) : bool := bool_decide (c = "-"%char).

(** The shape [YYYY-MM-DD]: four digits, a hyphen, two digits, a hyphen,
    two digits. *)
Definition isDateShape (s : string) : bool :=
  match s with
  | String y1 (String y2 (String y3 (String y4 (String h1
      (String m1 (String m2 (String h2 (String d1 (String d2 EmptyString))))))))) =>
      Str.isDigit y1 && Str.isDigit y2 && Str.isDigit y3 && Str.isDigit y4 &&
      isHyphen h1 && Str.isDigit m1 && Str.isDigit m2 &&
      isHyphen h2 && Str.isDigit d1 && Str.isDigit d2
  | _ => false
  end.

(** [s] is made of exactly [n] digits. *)
Definition isDigitsOfLength (n : nat) (s : string) : bool :=
  Str.all Str.isDigit s && bool_decide (String.length s = n).

(** [P] holds of the [count] integers from [start] on. *)
Fixpoint checkFrom (P : Z → bool) (start : Z) (count : nat) : bool :=
  match count with
  | O => true
  | S count' => P start && checkFrom P (start + 1) count'
  end.

(** Month and day of [GoTime.civil], as functions of the day of the era. *)
Definition monthDayOfEra (doe : Z) : Z * Z :=
  let yoe := (doe - doe / 1460 + doe / 36524 - doe / 146096) / 365 in
  let doy := doe - (365 * yoe + yoe / 4 - yoe / 100) in
  let mp := (5 * doy + 2) / 153 in
  let d := doy - (153 * mp + 2) / 5 + 1 in
  let m := if mp <? 10 then mp + 3 else mp - 9 in
  (m, d).

Definition monthDayInRange (doe : Z) : bool :=
  let '(m, d) := monthDayOfEra doe in
  (1 <=? m) && (m <=? 12) && (1 <=? d) && (d <=? 31).


(** What a computation adds to the trace when it runs from [st]. *)
Definition emitted {A} (m : Run A) (st : State) : list Event :=
  drop (length (trace st)) (trace (m st).2).

(** The token file can be opened and its content decodes. *)
Definition TokenLoads (env : Env) (st : State) : Prop :=
  ∃ content tok,
    files st !! "token.json" = Some content ∧
    fault env "token.json" ≠ CannotOpen ∧
    jsonDecodeToken env content = Some tok.

Definition isAuthorize (e : Event) : bool :=
  match e with Authorize _ => true | _ => false end.

(** The part is one that [main] selects: typed as PDF and named by digits
    and [".pdf"]. *)
Definition Selected (part : MessagePart) : Prop :=
  MimeType part = "application/pdf" ∧ InvoiceFilename (Filename part).

Definition selectedb (part : MessagePart) : bool :=
  bool_decide (MimeType part = "application/pdf") &&
  invoiceFilenameRegex_MatchString (Filename part).

(** The requests of a trace, by kind. *)
Definition listRequests (tr : list Event) : list (string * option string) :=
  omap (λ e, match e with ListRequest q t => Some (q, t) | _ => None end) tr.

Definition fullRequests (tr : list Event) : list string :=
  omap (λ e, match e with
             | GetRequest id format =>
                 if decide (format = "full") then Some id else None
             | _ => None
             end) tr.

Definition attachmentRequests (tr : list Event) : list (string * string) :=
  omap (λ e, match e with AttachmentRequest id a => Some (id, a) | _ => None end) tr.

(** The counters of the progress lines of a trace. *)
Definition progressIndices (tr : list Event) : list nat :=
  omap (λ e, match e with Progress i _ _ _ _ => Some i | _ => None end) tr.

(** The part was requested, nothing was logged, and the file
    [{prefix}-{filename}] holds [data]. *)
Definition PersistedAs (env : Env) (id filenamePrefix : string) (part : MessagePart)
    (st : State) (data : string) : Prop :=
  processPart env id filenamePrefix part st =
    (Done tt,
     mkState (<[filenamePrefix +:+ "-" +:+ Filename part := data]> (files st))
             (trace st ++ [AttachmentRequest id (AttachmentId (Body part))])).


(** Three answers of the provider: pages of 2, 2 and 0 messages with the
    continuation tokens [A], [B] and none. *)
Definition threePages (a1 a2 b1 b2 : Message) (A B : string)
    : list (option ListMessagesResponse) :=
  [Some (mkPage [a1; a2] A); Some (mkPage [b1; b2] B); Some (mkPage [] "")].

Definition pageTokenParam (pageToken : string) : option string :=
  if decide (pageToken = "") then None else Some pageToken.


(** The progress lines of a trace, as printed. *)
Definition progressLines (tr : list Event) : list string :=
  omap (λ e, match e with
             | Progress i id date from subject => Some (progressLine i id date from subject)
             | _ => None
             end) tr.

(** *** Reading a query back

    [main.go] only writes queries.  The reader below is the one the round
    trip of the specification speaks of: it splits a query into its
    field:value pairs, a value being either quoted (up to the next double
    quote) or bare (up to the next space). *)

Inductive ParseState :=
  | InKey (key : string)              (* reading a field name *)
  | AtValue (key : string)            (* just after the colon *)
  | InBare (key value : string)       (* reading a bare value *)
  | InQuoted (key value : string)     (* reading a quoted value *)
  | AfterQuoted.                      (* just after the closing quote *)

Definition snoc (s : string) (c : ascii) : string := s +:+ String c "".

Fixpoint parseFrom (ps : ParseState) (q : string) : list (string * string) :=
  match q with
  | EmptyString =>
      match ps with
      | AtValue key => [(key, "")]
      | InBare key value => [(key, value)]
      | _ => []
      end
  | String c q' =>
      match ps with
      | InKey key =>
          if decide (c = Str.colon) then parseFrom (AtValue key) q'
          else parseFrom (InKey (snoc key c)) q'
      | AtValue key =>
          if decide (c = Str.quote) then parseFrom (InQuoted key "") q'
          else if decide (c = Str.space) then (key, "") :: parseFrom (InKey "") q'
          else parseFrom (InBare key (String c "")) q'
      | InBare key value =>
          if decide (c = Str.space) then (key, value) :: parseFrom (InKey "") q'
          else parseFrom (InBare key (snoc value c)) q'
      | InQuoted key value =>
          if decide (c = Str.quote) then (key, value) :: parseFrom AfterQuoted q'
          else parseFrom (InQuoted key (snoc value c)) q'
      | AfterQuoted => parseFrom (InKey "") q'
      end
  end.

Definition parseQuery (q : string) : list (string * string) :=
  parseFrom (InKey "") q.

(** The pair that [encodeQuery] emits for an entry: quoted when the value
    contains a space or a colon, bare otherwise. *)
Definition encodePair (kv : string * string) : string :=
  if containsSpaceOrColon kv.2
  then kv.1 +:+ ":" +:+ String Str.quote (kv.2 +:+ String Str.quote "")
  else kv.1 +:+ ":" +:+ kv.2.

Definition noColon (s : string) : bool :=
  negb (Str.any (λ c, bool_decide (c = Str.colon)) s).

Definition noQuote (s : string) : bool :=
  negb (Str.any (λ c, bool_decide (c = Str.quote)) s).

(** No field name holds a colon and no value a double quote. *)
Definition Readable (params : gmap string string) : Prop :=
  map_Forall (λ k v, noColon k = true ∧ noQuote v = true) params.

(** Two mappings with a common encoding: a value that holds a double
    quote, and the two entries it reads as. *)
Definition quotedValue : string :=
  "x y" +:+ String Str.quote (" b:" +:+ String Str.quote "z w").

Definition oneEntry : gmap string string := {[ "a" := quotedValue ]}.

Definition twoEntries : gmap string string := {[ "a" := "x y"; "b" := "z w" ]}.


(** *** Sample worlds for the examples *)

(** A stand-in for the YAML reader: it knows the empty document and one
    alias table, and rejects every other text. *)
Definition sampleYaml (data : string) : option Configuration :=
  if decide (data = "") then Some emptyConfiguration
  else if decide (data = "contracts: {100200300200: mafra}")
  then Some (mkConfiguration {[ "100200300200" := "mafra" ]})
  else None.

Definition sampleToken : Token := mkToken "" "" "" 0.

(** A stand-in for the JSON decoder: the empty object is the zero token,
    every other text is rejected (the empty text with [io.EOF]). *)
Definition sampleJsonDecode (content : string) : option Token :=
  if decide (content = "{}") then Some sampleToken else None.

Definition sampleConfig : OAuthConfig := mkOAuthConfig "client" "".

Definition samplePdfPart : MessagePart :=
  mkPart "application/pdf" "187008571923.pdf" [] (mkBody "att-1" "") [].

Definition sampleDetail (id : string) : Message :=
  mkMessage id 1720400000000
    (mkPart "multipart/mixed" ""
       [mkHeader "From" "faturaedp@edp.pt";
        mkHeader "Subject" "A sua fatura EDP (contrato 100200300200)"]
       (mkBody "" "") [samplePdfPart])
    "".

(** The messages [m1] to [m4] exist; the raw form of [m1] cannot be
    retrieved. *)
Definition sampleMessagesGet (id format : string) : option Message :=
  if decide (id ∈ ["m1"; "m2"; "m3"; "m4"]) then
    if decide (format = "full") then Some (sampleDetail id)
    else if decide (id = "m1") then None
    else Some (mkMessage id 0 (mkPart "" "" [] (mkBody "" "") []) "RnJvbTogRURQ")
  else None.

Definition sampleAttachmentsGet (id attachmentId : string) : option MessagePartBody :=
  if decide (attachmentId = "att-1") then Some (mkBody "" "JVBERi0=") else None.

Definition sampleEnv : Env := {|
  fault := λ _, NoFault;
  yamlUnmarshal := sampleYaml;
  configFromJSON := λ _, Some sampleConfig;
  jsonDecodeToken := sampleJsonDecode;
  jsonEncodeToken := λ _, Some "{}";
  browserOpens := true;
  exchange := λ _, Some sampleToken;
  newService := true;
  rangeOrder := map_to_list;
  listResponses :=
    [Some (mkPage [mkMessage "m1" 0 (mkPart "" "" [] (mkBody "" "") []) "";
                   mkMessage "m2" 0 (mkPart "" "" [] (mkBody "" "") []) ""] "")];
  messagesGet := sampleMessagesGet;
  attachmentsGet := sampleAttachmentsGet;
  localZone := λ _, 0
|}.

(** [sampleEnv] on a disk where [path] cannot be written once opened. *)
Definition sampleEnvCannotWrite (path : string) : Env := {|
  fault := λ p, if decide (p = path) then CannotWrite else NoFault;
  yamlUnmarshal := sampleYaml;
  configFromJSON := λ _, Some sampleConfig;
  jsonDecodeToken := sampleJsonDecode;
  jsonEncodeToken := λ _, Some "{}";
  browserOpens := true;
  exchange := λ _, Some sampleToken;
  newService := true;
  rangeOrder := map_to_list;
  listResponses := [];
  messagesGet := sampleMessagesGet;
  attachmentsGet := sampleAttachmentsGet;
  localZone := λ _, 0
|}.

(** [sampleEnv] with a provider that cannot deliver any attachment. *)
Definition sampleEnvNoAttachment : Env := {|
  fault := λ _, NoFault;
  yamlUnmarshal := sampleYaml;
  configFromJSON := λ _, Some sampleConfig;
  jsonDecodeToken := sampleJsonDecode;
  jsonEncodeToken := λ _, Some "{}";
  browserOpens := true;
  exchange := λ _, Some sampleToken;
  newService := true;
  rangeOrder := map_to_list;
  listResponses := [];
  messagesGet := sampleMessagesGet;
  attachmentsGet := λ _ _, None;
  localZone := λ _, 0
|}.

Definition emptyDisk : State := mkState ∅ [].


(** A disk with the client secret and a saved token. *)
Definition sampleDisk : State :=
  mkState {[ "credentials.json" := "{}"; "token.json" := "{}" ]} [].


(** *** Vocabulary of the further properties *)

(** The value of the last header of [headers] named [name], the empty
    string when there is none. *)
Definition lastValue (name : string) (headers : list MessagePartHeader) : string :=
  default "" (last (map Value (List.filter (λ h, bool_decide (Name h = name)) headers))).

(** The page keeps the scan going: it has messages and a continuation
    token. *)
Definition continues (r : ListMessagesResponse) : bool :=
  negb (bool_decide (Messages r = [])) && negb (bool_decide (NextPageToken r = "")).

(** The pages that the scan reads from the answers of the provider. *)
Fixpoint pagesRead (responses : list (option ListMessagesResponse))
    : list ListMessagesResponse :=
  match responses with
  | Some r :: responses' => r :: (if continues r then pagesRead responses' else [])
  | _ => []
  end.

(** The continuation tokens of the list requests of the scan, the first
    one being [pageToken]. *)
Fixpoint tokensSent (pageToken : string) (responses : list (option ListMessagesResponse))
    : list string :=
  pageToken ::
  match responses with
  | Some r :: responses' =>
      if continues r then tokensSent (NextPageToken r) responses' else []
  | _ => []
  end.

(** How the scan ends. *)
Fixpoint scanResult (responses : list (option ListMessagesResponse)) : Result unit :=
  match responses with
  | [] => Hung
  | None :: _ => Fatal
  | Some r :: responses' => if continues r then scanResult responses' else Done tt
  end.

(** The messages of [ms] whose detail the provider delivers. *)
Definition detailed (env : Env) (ms : list Message) : list Message :=
  List.filter (λ m, bool_decide (is_Some (messagesGet env (Id m) "full"))) ms.

(** A stand-in for the JSON decoder that reads what [sampleEnv] encodes:
    the empty object and a line feed. *)
Definition sampleJsonDecodeLine (content : string) : option Token :=
  if decide (content = "{}" +:+ String Str.lf "") then Some sampleToken else None.

(** [sampleEnv] with that decoder. *)
Definition sampleEnvRoundTrip : Env := {|
  fault := λ _, NoFault;
  yamlUnmarshal := sampleYaml;
  configFromJSON := λ _, Some sampleConfig;
  jsonDecodeToken := sampleJsonDecodeLine;
  jsonEncodeToken := λ _, Some "{}";
  browserOpens := true;
  exchange := λ _, Some sampleToken;
  newService := true;
  rangeOrder := map_to_list;
  listResponses := [];
  messagesGet := sampleMessagesGet;
  attachmentsGet := sampleAttachmentsGet;
  localZone := λ _, 0
|}.



(** The characters of the name of an invoice: digits and those of [.pdf]. *)
Definition isInvoiceChar (c : ascii) : bool :=
  Str.isDigit c || bool_decide (c ∈ ["."%char; "p"%char; "d"%char; "f"%char]).

Definition isSlash (c : ascii) : bool := bool_decide (c = "/"%char).


(** * Properties *)

(** ** Strings *)

Lemma app_cons (c : ascii) (s t : string) : String c s +:+ t = String c (s +:+ t).
Proof. reflexivity. Qed.

Lemma app_empty_l (t : string) : "" +:+ t = t.
Proof. reflexivity. Qed.

Lemma app_empty_r (s : string) : s +:+ "" = s.
Proof. induction s as [|c s IH]; [done|]. by rewrite app_cons, IH. Qed.

Lemma app_assoc' (s t u : string) : (s +:+ t) +:+ u = s +:+ t +:+ u.
Proof. induction s as [|c s IH]; [done|]. by rewrite !app_cons, IH. Qed.

Lemma app_length' (s t : string) :
  String.length (s +:+ t) = (String.length s + String.length t)%nat.
Proof. induction s as [|c s IH]; [done|]. rewrite app_cons. simpl. by rewrite IH. Qed.

Lemma stripPrefix_Some (p s r : string) :
  Str.stripPrefix p s = Some r ↔ s = p +:+ r.
Proof.
  revert s. induction p as [|a p IH]; intros s; simpl.
  - rewrite app_empty_l. split; [by intros [= ->]|by intros ->].
  - rewrite app_cons. destruct s as [|b s]; [done|].
    destruct (decide (a = b)) as [->|Hab].
    + rewrite IH. split; [by intros ->|by intros [= ->]].
    + split; [done|]. intros [= -> _]. done.
Qed.

Lemma all_app (f : ascii → bool) (s t : string) :
  Str.all f (s +:+ t) = Str.all f s && Str.all f t.
Proof.
  induction s as [|c s IH]; [done|].
  rewrite app_cons. simpl. rewrite IH. by rewrite andb_assoc.
Qed.

(** What [digitRun] returns: the digits in front, and a rest that does not
    start with a digit. *)
Lemma digitRun_spec (s d r : string) :
  Str.digitRun s = (d, r) ↔
  s = d +:+ r ∧ Str.all Str.isDigit d = true ∧
  match r with String c _ => Str.isDigit c = false | EmptyString => True end.
Proof.
  revert d. induction s as [|c s IH]; intros d; simpl.
  - split.
    + intros [= <- <-]. done.
    + intros (Hs & _ & _). destruct d; [|done]. rewrite app_empty_l in Hs. by subst.
  - destruct (Str.isDigit c) eqn:Hc.
    + destruct (Str.digitRun s) as [d' r'] eqn:Hrun. split.
      * intros [= <- <-]. destruct (proj1 (IH d') eq_refl) as (-> & Hd & Hr).
        rewrite app_cons. simpl. rewrite Hc, Hd. done.
      * intros (Hs & Hd & Hr). destruct d as [|c' d].
        { rewrite app_empty_l in Hs. subst r. congruence. }
        rewrite app_cons in Hs. injection Hs as <- Hs. simpl in Hd.
        apply andb_true_iff in Hd as [_ Hd].
        assert ((d', r') = (d, r)) as [= -> ->] by (apply IH; done).
        done.
    + split.
      * intros [= <- <-]. rewrite app_empty_l. by rewrite Hc.
      * intros (Hs & Hd & Hr). destruct d as [|c' d].
        { rewrite app_empty_l in Hs. by subst. }
        rewrite app_cons in Hs. injection Hs as <- Hs. simpl in Hd.
        rewrite Hc in Hd. done.
Qed.

(** ** The regular expressions *)

Lemma isDigit_paren : Str.isDigit ")" = false.
Proof. reflexivity. Qed.

Lemma contractToken_app (ds post : string) :
  contractToken ds +:+ post = "(contrato " +:+ ds +:+ String ")" post.
Proof. unfold contractToken. by rewrite !app_assoc'. Qed.

Lemma contractSubjectRegex_at_token (ds post : string) :
  Digits ds →
  contractSubjectRegex_at (contractToken ds +:+ post) = Some (contractToken ds, ds).
Proof.
  intros [Hne Hds]. unfold contractSubjectRegex_at.
  rewrite contractToken_app.
  rewrite (proj2 (stripPrefix_Some "(contrato " _ (ds +:+ String ")" post)) eq_refl).
  rewrite (proj2 (digitRun_spec (ds +:+ String ")" post) ds (String ")" post)))
    by (split_and!; [done|done|apply isDigit_paren]).
  destruct ds as [|c d]; [done|]. by rewrite decide_True.
Qed.

Lemma contractSubjectRegex_at_inv (s whole group1 : string) :
  contractSubjectRegex_at s = Some (whole, group1) →
  TokenAt s group1 ∧ whole = contractToken group1.
Proof.
  unfold contractSubjectRegex_at.
  destruct (Str.stripPrefix _ s) as [r|] eqn:Hp; [|done].
  apply stripPrefix_Some in Hp.
  destruct (Str.digitRun r) as [d r'] eqn:Hrun.
  apply digitRun_spec in Hrun as (-> & Hd & _).
  destruct d as [|c d]; [done|]. destruct r' as [|b post]; [done|].
  destruct (decide (b = ")"%char)) as [->|]; [|done].
  intros [= <- <-]. split; [|done]. split; [done|].
  exists post. by rewrite contractToken_app.
Qed.

Lemma contractSubjectRegex_at_None (s : string) :
  contractSubjectRegex_at s = None ↔ ∀ ds, ¬ TokenAt s ds.
Proof.
  split.
  - intros Hnone ds [Hds [post ->]].
    rewrite contractSubjectRegex_at_token in Hnone; done.
  - intros Hno. destruct (contractSubjectRegex_at s) as [[w g]|] eqn:Hat; [|done].
    apply contractSubjectRegex_at_inv in Hat as [Htok _]. by destruct (Hno g).
Qed.

Lemma FindStringSubmatch_here (s whole group1 : string) :
  contractSubjectRegex_at s = Some (whole, group1) →
  contractSubjectRegex_FindStringSubmatch s = [whole; group1].
Proof. intros Hat. destruct s; [by vm_compute in Hat|]. simpl. by rewrite Hat. Qed.

(** The slice that [FindStringSubmatch] returns is nil or holds the match
    and its group. *)
Lemma FindStringSubmatch_cases (s : string) :
  contractSubjectRegex_FindStringSubmatch s = [] ∨
  ∃ ds, contractSubjectRegex_FindStringSubmatch s = [contractToken ds; ds].
Proof.
  induction s as [|c s IH]; simpl.
  - by left.
  - destruct (contractSubjectRegex_at (String c s)) as [[w g]|] eqn:Hat; [|done].
    apply contractSubjectRegex_at_inv in Hat as [_ ->]. right. by exists g.
Qed.

Lemma FindStringSubmatch_first (pre rest ds : string) :
  TokenAt rest ds →
  (∀ pre' rest' ds', pre +:+ rest = pre' +:+ rest' → TokenAt rest' ds' →
     (String.length pre ≤ String.length pre')%nat) →
  contractSubjectRegex_FindStringSubmatch (pre +:+ rest) = [contractToken ds; ds].
Proof.
  induction pre as [|c pre IH]; intros Htok Hmin.
  - rewrite app_empty_l. destruct Htok as [Hds [post ->]].
    by apply FindStringSubmatch_here, contractSubjectRegex_at_token.
  - rewrite app_cons. simpl.
    destruct (contractSubjectRegex_at (String c (pre +:+ rest))) as [[w g]|] eqn:Hat.
    + apply contractSubjectRegex_at_inv in Hat as [Htok' _].
      specialize (Hmin "" (String c (pre +:+ rest)) g eq_refl Htok').
      simpl in Hmin. lia.
    + apply IH; [done|]. intros pre' rest' ds' Heq Htok'.
      specialize (Hmin (String c pre') rest' ds').
      rewrite !app_cons, Heq in Hmin. specialize (Hmin eq_refl Htok').
      simpl in Hmin. lia.
Qed.

Lemma FindStringSubmatch_FirstToken (s ds : string) :
  FirstToken s ds →
  contractSubjectRegex_FindStringSubmatch s = [contractToken ds; ds].
Proof.
  intros (pre & rest & -> & Htok & Hmin). by apply FindStringSubmatch_first.
Qed.

Lemma FindStringSubmatch_nil (s : string) :
  ¬ HasToken s → contractSubjectRegex_FindStringSubmatch s = [].
Proof.
  induction s as [|c s IH]; intros Hno.
  - done.
  - simpl. rewrite (proj2 (contractSubjectRegex_at_None (String c s))).
    + apply IH. intros (pre & rest & ds & -> & Htok). apply Hno.
      exists (String c pre), rest, ds. by rewrite app_cons.
    + intros ds Htok. apply Hno. by exists "", (String c s), ds.
Qed.

(** The leftmost match is a first token: what the matcher finds is in the
    subject, and nothing matches before it. *)
Lemma FindStringSubmatch_sound (s whole ds : string) :
  contractSubjectRegex_FindStringSubmatch s = [whole; ds] → FirstToken s ds.
Proof.
  induction s as [|c s IH]; simpl.
  - done.
  - destruct (contractSubjectRegex_at (String c s)) as [[w g]|] eqn:Hat.
    + intros [= -> ->]. apply contractSubjectRegex_at_inv in Hat as [Htok _].
      exists "", (String c s). split_and!; [done|done|]. intros; simpl; lia.
    + intros Hfind. destruct (IH Hfind) as (pre & rest & -> & Htok & Hmin).
      exists (String c pre), rest. split_and!; [done|done|].
      intros pre' rest' ds' Heq Htok'. destruct pre' as [|c' pre'].
      * rewrite app_empty_l in Heq. subst rest'.
        by destruct (proj1 (contractSubjectRegex_at_None _) Hat ds').
      * rewrite !app_cons in Heq. injection Heq as <- Heq.
        specialize (Hmin pre' rest' ds' Heq Htok'). simpl. lia.
Qed.

Lemma invoiceFilenameRegex_MatchString_spec (s : string) :
  invoiceFilenameRegex_MatchString s = true ↔ InvoiceFilename s.
Proof.
  unfold invoiceFilenameRegex_MatchString, InvoiceFilename, Digits.
  destruct (Str.digitRun s) as [d r] eqn:Hrun. split.
  - destruct d as [|c d]; [done|]. intros Hr%bool_decide_eq_true. subst r.
    apply digitRun_spec in Hrun as (-> & Hd & _). by exists (String c d).
  - intros (ds & [Hne Hds] & ->).
    rewrite (proj2 (digitRun_spec (ds +:+ ".pdf") ds ".pdf")) in Hrun
      by (split_and!; done).
    injection Hrun as <- <-. destruct ds; [done|]. by apply bool_decide_eq_true.
Qed.

Lemma FindStringSubmatch_HasToken (s : string) :
  HasToken s → contractSubjectRegex_FindStringSubmatch s ≠ [].
Proof.
  induction s as [|c s IH]; intros (pre & rest & ds & Heq & Htok).
  - destruct pre; [|done]. rewrite app_empty_l in Heq. subst rest.
    destruct Htok as [_ [post Hpost]]. rewrite contractToken_app in Hpost. done.
  - simpl. destruct (contractSubjectRegex_at (String c s)) as [[w g]|] eqn:Hat; [done|].
    apply IH. destruct pre as [|c' pre].
    + rewrite app_empty_l in Heq. subst rest.
      by destruct (proj1 (contractSubjectRegex_at_None _) Hat ds).
    + rewrite app_cons in Heq. injection Heq as <- ->. by exists pre, rest, ds.
Qed.

(** ** The file name prefix *)

(** C1: when the subject contains a token ["(contrato <digits>)"], the prefix
    is [{date}-edp-{contract}] for the digits of the first token, with
    [-{alias}] appended exactly when the contract is a key of the alias
    table; when the subject contains no token, the prefix is
    [{date}-{messageId}]; the subject "A sua fatura EDP (contrato
    100200300200)" has the contract 100200300200. *)
Theorem C1_filenamePrefix (configuration : Configuration) (date id subject : string) :
  (∀ contract, FirstToken subject contract →
     filenamePrefix configuration date id subject =
       match Contracts configuration !! contract with
       | Some alias => date +:+ "-edp-" +:+ contract +:+ "-" +:+ alias
       | None => date +:+ "-edp-" +:+ contract
       end) ∧
  (¬ HasToken subject →
     filenamePrefix configuration date id subject = date +:+ "-" +:+ id) ∧
  FirstToken "A sua fatura EDP (contrato 100200300200)" "100200300200".
Proof.
  split_and!.
  - intros contract Hfirst. unfold filenamePrefix.
    rewrite (FindStringSubmatch_FirstToken _ _ Hfirst). simpl.
    destruct (Contracts configuration !! contract) as [alias|]; [|done].
    by rewrite !app_assoc'.
  - intros Hno. unfold filenamePrefix. by rewrite (FindStringSubmatch_nil _ Hno).
  - by apply (FindStringSubmatch_sound _ (contractToken "100200300200")).
Qed.

Lemma C1_filenamePrefix_witness :
  filenamePrefix (mkConfiguration {[ "100200300200" := "mafra" ]}) "2024-07-08" "18f3a"
    "A sua fatura EDP (contrato 100200300200)" = "2024-07-08-edp-100200300200-mafra" ∧
  filenamePrefix (mkConfiguration ∅) "2024-07-08" "18f3a"
    "A sua fatura EDP (contrato 100200300200)" = "2024-07-08-edp-100200300200" ∧
  filenamePrefix (mkConfiguration {[ "100200300200" := "mafra" ]}) "2024-07-08" "18f3a"
    "A sua fatura EDP" = "2024-07-08-18f3a".
Proof.
  split_and!.
  - destruct (C1_filenamePrefix (mkConfiguration {[ "100200300200" := "mafra" ]})
      "2024-07-08" "18f3a" "A sua fatura EDP (contrato 100200300200)") as (H & _ & Hfirst).
    exact (H _ Hfirst).
  - destruct (C1_filenamePrefix (mkConfiguration ∅)
      "2024-07-08" "18f3a" "A sua fatura EDP (contrato 100200300200)") as (H & _ & Hfirst).
    exact (H _ Hfirst).
  - apply (C1_filenamePrefix (mkConfiguration {[ "100200300200" := "mafra" ]})
      "2024-07-08" "18f3a" "A sua fatura EDP").
    intros Hhas. by apply FindStringSubmatch_HasToken in Hhas.
Defined.

(** ** Dates *)

Lemma checkFrom_spec (P : Z → bool) (count : nat) (start : Z) :
  checkFrom P start count = true →
  ∀ z, start <= z < start + Z.of_nat count → P z = true.
Proof.
  revert start. induction count as [|count IH]; intros start Hall z Hz; [lia|].
  simpl in Hall. apply andb_true_iff in Hall as [Hhere Hrest].
  destruct (decide (z = start)) as [->|Hne]; [done|].
  apply (IH (start + 1)); [done|lia].
Qed.

Lemma monthDayInRange_era : checkFrom monthDayInRange 0 (Z.to_nat 146097) = true.
Proof. vm_compute. reflexivity. Qed.

Lemma appendInt_year : 
  checkFrom (λ y, isDigitsOfLength 4 (GoTime.appendInt y 4)) 0 (Z.to_nat 10000) = true.
Proof. vm_compute. reflexivity. Qed.

Lemma appendInt_two :
  checkFrom (λ y, isDigitsOfLength 2 (GoTime.appendInt y 2)) 0 (Z.to_nat 100) = true.
Proof. vm_compute. reflexivity. Qed.

(** The month of a civil date is in 1..12 and its day in 1..31. *)
Lemma civil_month_day (days : Z) :
  let '(y, m, d) := GoTime.civil days in 1 <= m <= 12 ∧ 1 <= d <= 31.
Proof.
  pose proof (checkFrom_spec _ _ _ monthDayInRange_era
                ((days + 719468) mod 146097)) as Hin.
  assert ((days + 719468 - (days + 719468) / 146097 * 146097)
          = (days + 719468) mod 146097) as Hdoe
    by (rewrite Z.mod_eq by lia; lia).
  unfold GoTime.civil. cbv zeta. rewrite Hdoe.
  unfold monthDayInRange, monthDayOfEra in Hin. cbv zeta in Hin.
  specialize (Hin ltac:(pose proof (Z.mod_pos_bound (days + 719468) 146097); lia)).
  set (doe := (days + 719468) mod 146097) in *.
  lia.
Qed.

Lemma isDateShape_app (y m d : string) :
  isDigitsOfLength 4 y = true → isDigitsOfLength 2 m = true →
  isDigitsOfLength 2 d = true →
  isDateShape (y +:+ "-" +:+ m +:+ "-" +:+ d) = true.
Proof.
  unfold isDigitsOfLength. intros [Hy Hly%bool_decide_eq_true]%andb_true_iff
    [Hm Hlm%bool_decide_eq_true]%andb_true_iff [Hd Hld%bool_decide_eq_true]%andb_true_iff.
  destruct y as [|y1 [|y2 [|y3 [|y4 [|]]]]]; try done.
  destruct m as [|m1 [|m2 [|]]]; try done.
  destruct d as [|d1 [|d2 [|]]]; try done.
  rewrite !app_cons, !app_empty_l. simpl in *.
  repeat match goal with H : _ && _ = true |- _ => apply andb_true_iff in H as [? ?] end.
  unfold isHyphen. rewrite !bool_decide_eq_true_2 by done.
  repeat match goal with H : Str.isDigit _ = true |- _ => rewrite H; clear H end.
  done.
Qed.

(** C7: [formatDate] is a function of the timestamp (and of the zone of the
    run), and for a timestamp whose local calendar year is between 0 and
    9999 its output has the shape YYYY-MM-DD. *)
Theorem C7_formatDate_shape (tz : Z → Z) (internalDateMs : Z) :
  (∀ other, other = internalDateMs → formatDate tz other = formatDate tz internalDateMs) ∧
  (0 <= localYear tz internalDateMs <= 9999 →
   isDateShape (formatDate tz internalDateMs) = true).
Proof.
  split; [by intros ? ->|]. unfold localYear, formatDate, GoTime.Format_2006_01_02.
  set (t := GoTime.Unix _ _). unfold GoTime.localDate.
  pose proof (civil_month_day ((t.1 + tz t.1) / 86400)) as Hmd.
  destruct (GoTime.civil _) as [[y m] d]. simpl. intros Hy.
  apply isDateShape_app.
  - apply (checkFrom_spec _ _ _ appendInt_year y). lia.
  - apply (checkFrom_spec _ _ _ appendInt_two m). lia.
  - apply (checkFrom_spec _ _ _ appendInt_two d). lia.
Qed.

Lemma C7_formatDate_shape_witness :
  isDateShape (formatDate (λ _, 0) 1720400000000) = true.
Proof.
  apply (C7_formatDate_shape (λ _, 0) 1720400000000). vm_compute. split; discriminate.
Defined.

(** A timestamp of the year 10000 is formatted with a five-digit year. *)
Lemma C7_formatDate_year_10000 :
  int64 253402300800000 ∧
  formatDate (λ _, 0) 253402300800000 = "10000-01-01" ∧
  isDateShape (formatDate (λ _, 0) 253402300800000) = false.
Proof. split_and!; [by vm_compute|by vm_compute|by vm_compute]. Qed.

(** ** Running computations *)

Ltac run :=
  unfold ReadFile, WriteFile, OpenFile_create_trunc, Encode,
    mbind, Run_bind, mret, Run_ret, emit, fatalf, hang; simpl.

Lemma emitted_app {A} (m : Run A) (st : State) (evs : list Event) :
  trace (m st).2 = trace st ++ evs → emitted m st = evs.
Proof. unfold emitted. intros ->. apply drop_app_length. Qed.

(** ** Base64 *)

Lemma stripNewlines_id (s : string) :
  Str.any Base64.isNewline s = false → Base64.stripNewlines s = s.
Proof.
  induction s as [|c s IH]; [done|]. simpl.
  intros [Hc Hs]%orb_false_iff. rewrite Hc. by rewrite IH.
Qed.

(** An input that decodes is made of quanta of four characters. *)
Lemma decodeQuanta_length (n : nat) (src out : string) :
  (String.length src ≤ n)%nat →
  Base64.decodeQuanta src = Some out → (String.length src mod 4 = 0)%nat.
Proof.
  revert src out. induction n as [|n IH]; intros src out Hlen.
  - destruct src; [done|simpl in Hlen; lia].
  - destruct src as [|a [|b [|c [|d rest]]]]; try done.
    intros Hdec. cbn [String.length] in *.
    assert (String.length rest mod 4 = 0)%nat as Hrest.
    { simpl in Hdec.
      destruct (Base64.decodeMap a); [|done]. destruct (Base64.decodeMap b); [|done].
      destruct (Base64.decodeMap c), (Base64.decodeMap d);
        repeat case_decide; simplify_eq; try done; destruct_and?; subst; try done.
      destruct (Base64.decodeQuanta rest) as [out'|] eqn:Hrest; [|done].
      apply (IH rest out'); [lia|done]. }
    change (S (S (S (S (String.length rest))))) with (4 + String.length rest)%nat.
    rewrite <- Nat.Div0.add_mod_idemp_r, Hrest. done.
Qed.

Lemma DecodeString_length (s : string) :
  Str.any Base64.isNewline s = false →
  (String.length s mod 4 ≠ 0)%nat → Base64.DecodeString s = None.
Proof.
  intros Hnl Hlen. unfold Base64.DecodeString. rewrite stripNewlines_id by done.
  destruct (Base64.decodeQuanta s) as [out|] eqn:Hdec; [|done].
  by apply (decodeQuanta_length (String.length s)) in Hdec.
Qed.

(** ** Saving files *)

(** C9: [saveAttachment] and [saveRawMessage] decode before they write.  When
    the base64 decoding fails they return an error and leave the state
    (files included) as it was; they return nil exactly when the decoding
    and the write both succeed, and the file then holds the decoded bytes.
    An input without line breaks whose length is not a multiple of 4 does
    not decode. *)
Theorem C9_decode_before_write (env : Env) (st : State) (filename : string)
    (part : MessagePartBody) (rawContent : string) :
  (Base64.DecodeString (Data part) = None →
     ∃ e, saveAttachment env filename part st = (Done (Some e), st)) ∧
  (Base64.DecodeString rawContent = None →
     ∃ e, saveRawMessage env filename rawContent st = (Done (Some e), st)) ∧
  ((saveAttachment env filename part st).1 = Done None ↔
     ∃ data, Base64.DecodeString (Data part) = Some data ∧
             WriteFile env filename data st
             = (Done None, mkState (<[filename := data]> (files st)) (trace st))) ∧
  ((saveRawMessage env filename rawContent st).1 = Done None ↔
     ∃ data, Base64.DecodeString rawContent = Some data ∧
             WriteFile env filename data st
             = (Done None, mkState (<[filename := data]> (files st)) (trace st))) ∧
  (∀ s, Str.any Base64.isNewline s = false → (String.length s mod 4 ≠ 0)%nat →
        Base64.DecodeString s = None) ∧
  Base64.DecodeString "QUJ" = None.
Proof.
  split_and!.
  - intros Hdec. unfold saveAttachment. rewrite Hdec. by eexists.
  - intros Hdec. unfold saveRawMessage. rewrite Hdec. by eexists.
  - unfold saveAttachment. destruct (Base64.DecodeString (Data part)) as [data|].
    + run. destruct (fault env filename); simpl; naive_solver.
    + run. naive_solver.
  - unfold saveRawMessage. destruct (Base64.DecodeString rawContent) as [data|].
    + run. destruct (fault env filename); simpl; naive_solver.
    + run. naive_solver.
  - apply DecodeString_length.
  - reflexivity.
Qed.

Lemma C9_decode_before_write_witness :
  ∃ e, saveAttachment sampleEnv "invoice.pdf" (mkBody "att-1" "QUJ") emptyDisk
       = (Done (Some e), emptyDisk).
Proof.
  apply (C9_decode_before_write sampleEnv emptyDisk "invoice.pdf"
           (mkBody "att-1" "QUJ") "QUJ").
  reflexivity.
Defined.

(** ** The token file *)

Lemma tokenFromFile_Val (env : Env) (st : State) (file : string) (tok : Token) :
  tokenFromFile env file st = (Done (Val tok), st) ↔
  ∃ content, files st !! file = Some content ∧ fault env file ≠ CannotOpen ∧
             jsonDecodeToken env content = Some tok.
Proof.
  unfold tokenFromFile. run. destruct (files st !! file) as [content|]; simpl.
  - destruct (fault env file) eqn:Hf; simpl;
      destruct (jsonDecodeToken env content) as [tok'|] eqn:Hd; simpl; split;
      try (intros [= ->]; by exists content);
      try (intros (? & [= <-] & ? & ?); congruence); try done.
  - split; [done|]. by intros (? & ? & _).
Qed.

Lemma tokenFromFile_cases (env : Env) (st : State) (file : string) :
  (∃ tok, tokenFromFile env file st = (Done (Val tok), st)) ∨
  (∃ e, tokenFromFile env file st = (Done (Err e), st)).
Proof.
  unfold tokenFromFile. run. destruct (files st !! file) as [content|]; simpl.
  - destruct (fault env file); simpl;
      destruct (jsonDecodeToken env content); simpl; eauto.
  - eauto.
Qed.

(** C10: [saveToken] exits the process exactly when the token file cannot be
    opened for writing.  Once the file is open it returns normally, also
    when encoding or writing the credential fails: the file is then left
    empty, and [getClient] hands out the client of the new credential all
    the same. *)
Theorem C10_saveToken (env : Env) (path : string) (token : Token) (st : State) :
  ((saveToken env path token st).1 = Fatal ↔ fault env path = CannotOpen) ∧
  (fault env path ≠ CannotOpen → (saveToken env path token st).1 = Done tt) ∧
  (fault env path ≠ CannotOpen →
   (jsonEncodeToken env token = None ∨ fault env path = CannotWrite) →
     (saveToken env path token st).1 = Done tt ∧
     files (saveToken env path token st).2 !! path = Some "") ∧
  (∀ config e, tokenFromFile env "token.json" st = (Done (Err e), st) →
     exchange env (mkOAuthConfig (ClientID config) "http://localhost:8080/oauth2/callback")
       = Some token →
     fault env "token.json" ≠ CannotOpen →
     (getClient env config st).1
       = Done (mkClient (mkOAuthConfig (ClientID config)
                           "http://localhost:8080/oauth2/callback") token)).
Proof.
  split_and!.
  - unfold saveToken. run. destruct (fault env path); simpl;
      destruct (jsonEncodeToken env token); simpl; naive_solver.
  - unfold saveToken. run. destruct (fault env path); simpl;
      destruct (jsonEncodeToken env token); simpl; naive_solver.
  - unfold saveToken. run. destruct (fault env path); simpl;
      destruct (jsonEncodeToken env token); simpl;
      intros ? [?|?]; simplify_eq; by rewrite lookup_insert_eq.
  - intros config e Hfile Hex Hopen. unfold getClient. run. rewrite Hfile.
    unfold getTokenFromWeb, saveToken. run. rewrite Hex.
    destruct (browserOpens env); simpl;
      destruct (fault env "token.json"); simpl; try done;
      destruct (jsonEncodeToken env token); done.
Qed.

Lemma C10_saveToken_witness :
  (saveToken (sampleEnvCannotWrite "token.json") "token.json" sampleToken emptyDisk).1
    = Done tt ∧
  files (saveToken (sampleEnvCannotWrite "token.json") "token.json" sampleToken emptyDisk).2
    !! "token.json" = Some "".
Proof.
  apply (C10_saveToken (sampleEnvCannotWrite "token.json") "token.json" sampleToken emptyDisk).
  - vm_compute. discriminate.
  - right. reflexivity.
Defined.

(** C6 as the code has it: a token file that can be opened and decodes is
    used directly, whatever the token and its expiry, and nothing else
    happens; the interactive flow is entered exactly when the file is
    absent, cannot be opened or does not decode. *)
Theorem C6_getClient (env : Env) (config : OAuthConfig) (st : State) :
  (∀ content tok,
     files st !! "token.json" = Some content →
     fault env "token.json" ≠ CannotOpen →
     jsonDecodeToken env content = Some tok →
     getClient env config st = (Done (mkClient config tok), st)) ∧
  (existsb isAuthorize (emitted (getClient env config) st) = true ↔
     ¬ TokenLoads env st) ∧
  (files st !! "token.json" = None →
     existsb isAuthorize (emitted (getClient env config) st) = true).
Proof.
  assert (¬ TokenLoads env st →
          existsb isAuthorize (emitted (getClient env config) st) = true) as Hflow.
  { intros Hno. destruct (tokenFromFile_cases env st "token.json") as [[tok H]|[e H]].
    { destruct Hno. apply tokenFromFile_Val in H as (content & ? & ? & ?).
      by exists content, tok. }
    unfold emitted, getClient. run. rewrite H.
    unfold getTokenFromWeb, saveToken. run.
    destruct (browserOpens env); simpl;
      destruct (exchange env _); simpl;
      destruct (fault env "token.json"); simpl;
      repeat match goal with |- context [jsonEncodeToken ?e ?t] =>
               destruct (jsonEncodeToken e t); simpl end;
      rewrite <- ?(assoc_L (++)); rewrite drop_app_length; done. }
  split_and!.
  - intros content tok Hfile Hopen Hdec. unfold getClient. run.
    rewrite (proj2 (tokenFromFile_Val env st "token.json" tok)); [done|].
    by exists content.
  - split; [|done]. intros Hauth (content & tok & Hfile & Hopen & Hdec).
    unfold emitted, getClient in Hauth. revert Hauth. run.
    rewrite (proj2 (tokenFromFile_Val env st "token.json" tok)) by (by exists content).
    simpl. by rewrite drop_all.
  - intros Hfile. apply Hflow. intros (content & tok & ? & _). congruence.
Qed.

Lemma C6_getClient_witness :
  getClient sampleEnv sampleConfig (mkState {[ "token.json" := "{}" ]} [])
  = (Done (mkClient sampleConfig sampleToken), mkState {[ "token.json" := "{}" ]} []).
Proof.
  destruct (C6_getClient sampleEnv sampleConfig (mkState {[ "token.json" := "{}" ]} []))
    as (H & _ & _).
  apply (H "{}" sampleToken); [reflexivity|vm_compute; discriminate|reflexivity].
Defined.

(** A token file that is present but empty does not short-circuit the
    authorization: the decoder fails and the interactive flow is entered. *)
Lemma C6_present_but_undecodable :
  files (mkState {[ "token.json" := "" ]} []) !! "token.json" = Some "" ∧
  emitted (getClient sampleEnv sampleConfig) (mkState {[ "token.json" := "" ]} [])
  = [Authorize (mkOAuthConfig "client" "http://localhost:8080/oauth2/callback");
     Log "Opening browser for authorization";
     Stdout ("Saving credential file to: token.json" +:+ String Str.lf "")].
Proof. split; reflexivity. Qed.

(** ** The alias configuration *)

(** C8: [getConfiguration] on a file that does not exist returns the empty
    configuration, without aliases, and no error; on a file whose content
    the YAML reader rejects it returns an error, and [main] then exits at
    once: it has read nothing else, authorized nothing and requested
    nothing. *)
Theorem C8_getConfiguration (env : Env) (st : State) :
  (∀ filename, files st !! filename = None →
     getConfiguration env filename st = (Done (Val emptyConfiguration), st)) ∧
  Contracts emptyConfiguration = ∅ ∧
  (∀ filename yamlData,
     files st !! filename = Some yamlData → fault env filename ≠ CannotOpen →
     yamlUnmarshal env yamlData = None →
     ∃ e, getConfiguration env filename st = (Done (Err e), st)) ∧
  (∀ yamlData,
     files st !! "config.yaml" = Some yamlData → fault env "config.yaml" ≠ CannotOpen →
     yamlUnmarshal env yamlData = None →
     main env st =
       (Fatal, mkState (files st) (trace st ++ [Log "Unable to read the configuration"]))).
Proof.
  split_and!.
  - intros filename Hfile. unfold getConfiguration. run. by rewrite Hfile.
  - done.
  - intros filename yamlData Hfile Hopen Hyaml. unfold getConfiguration. run.
    rewrite Hfile. destruct (fault env filename); simpl; rewrite ?Hyaml; by eauto.
  - intros yamlData Hfile Hopen Hyaml. unfold main, getConfiguration. run.
    rewrite Hfile. destruct (fault env "config.yaml"); simpl; rewrite ?Hyaml; done.
Qed.

Lemma C8_getConfiguration_witness :
  main sampleEnv (mkState {[ "config.yaml" := "contracts: [" ]} [])
  = (Fatal, mkState {[ "config.yaml" := "contracts: [" ]}
                    [Log "Unable to read the configuration"]).
Proof.
  destruct (C8_getConfiguration sampleEnv (mkState {[ "config.yaml" := "contracts: [" ]} []))
    as (_ & _ & _ & H).
  apply (H "contracts: ["); [reflexivity|vm_compute; discriminate|reflexivity].
Defined.

(** ** Attachments *)

Ltac destruct_fault :=
  match goal with |- context [fault ?env ?p] => destruct (fault env p) eqn:? end.

Ltac destruct_get :=
  match goal with
  | |- context [attachmentsGet ?env ?i ?a] =>
      let body := fresh "body" in destruct (attachmentsGet env i a) as [body|] eqn:?
  end.

Lemma selectedb_spec (part : MessagePart) : selectedb part = true ↔ Selected part.
Proof.
  unfold selectedb, Selected.
  rewrite andb_true_iff, bool_decide_eq_true, invoiceFilenameRegex_MatchString_spec.
  done.
Qed.

(** What one trip through the loop over the parts does, case by case. *)
Lemma processPart_cases (env : Env) (id filenamePrefix : string) (part : MessagePart)
    (st : State) :
  let path := filenamePrefix +:+ "-" +:+ Filename part in
  let req := AttachmentRequest id (AttachmentId (Body part)) in
  processPart env id filenamePrefix part st =
    if selectedb part then
      match attachmentsGet env id (AttachmentId (Body part)) with
      | None =>
          (Done tt, mkState (files st)
                      (trace st ++ [req; Log "Unable to retrieve message attachment"]))
      | Some body =>
          match Base64.DecodeString (Data body), fault env path with
          | Some data, NoFault =>
              (Done tt, mkState (<[path := data]> (files st)) (trace st ++ [req]))
          | Some data, CannotWrite =>
              (Done tt, mkState (<[path := ""]> (files st))
                          (trace st ++ [req; Log "Unable to save message attachment"]))
          | _, _ =>
              (Done tt, mkState (files st)
                          (trace st ++ [req; Log "Unable to save message attachment"]))
          end
      end
    else (Done tt, st).
Proof.
  unfold processPart, selectedb, saveAttachment.
  destruct (decide (MimeType part = "application/pdf")) as [Hm|Hm];
    [rewrite bool_decide_eq_true_2 by done|rewrite bool_decide_eq_false_2 by done];
    simpl; [|done].
  destruct (invoiceFilenameRegex_MatchString (Filename part)); [|done].
  run. destruct_get; simpl.
  - destruct (Base64.DecodeString (Data body)); run;
      try destruct_fault; simpl; by rewrite <- ?(assoc_L (++)).
  - by rewrite <- (assoc_L (++)).
Qed.

(** The loop over the parts returns, and requests the selected parts of
    the list it is given, in order, and nothing else. *)
Lemma forEach_processPart (env : Env) (id filenamePrefix : string)
    (parts : list MessagePart) (st : State) :
  ∃ fs evs,
    forEach (processPart env id filenamePrefix) parts st
      = (Done tt, mkState fs (trace st ++ evs)) ∧
    attachmentRequests evs
      = map (λ p, (id, AttachmentId (Body p))) (List.filter selectedb parts) ∧
    listRequests evs = [] ∧ fullRequests evs = [] ∧ progressIndices evs = [].
Proof.
  revert st. induction parts as [|part parts IH]; intros st.
  - exists (files st), []. simpl. rewrite (right_id_L [] (++)). by destruct st.
  - simpl. unfold mbind, Run_bind. rewrite processPart_cases. cbv zeta.
    destruct (selectedb part); simpl.
    2: { apply IH. }
    destruct_get; simpl.
    1: destruct (Base64.DecodeString (Data body)); simpl;
         try destruct_fault; simpl.
    all: match goal with |- context [forEach _ _ ?s] =>
           destruct (IH s) as (fs & evs & -> & Ha & Hl & Hf & Hp) end.
    all: simpl; rewrite <- (assoc_L (++)); eexists _, _; split; [done|].
    all: unfold listRequests, fullRequests, progressIndices, attachmentRequests in *.
    all: rewrite ?omap_app, ?Ha, ?Hl, ?Hf, ?Hp; simpl; done.
Qed.

Lemma state_eq_inv (files1 files2 : gmap string string) (tr evs1 evs2 : list Event) :
  (Done tt, mkState files1 (tr ++ evs1)) = (Done tt, mkState files2 (tr ++ evs2)) →
  files1 = files2 ∧ evs1 = evs2.
Proof. intros [= ? ?%(inj (app tr))]. done. Qed.

(** C5 as the code has it: a part is requested exactly when it is typed
    [application/pdf] and named by digits and [.pdf]; it is persisted exactly
    when, moreover, the request, the decoding and the write succeed; a part
    that is not selected leaves the state alone; only the top-level parts
    are looked at. *)
Theorem C5_attachment_selection (env : Env) (id filenamePrefix : string)
    (part : MessagePart) (st : State) :
  (processPart env id filenamePrefix part st).1 = Done tt ∧
  (attachmentRequests (emitted (processPart env id filenamePrefix part) st)
     = [(id, AttachmentId (Body part))] ↔ Selected part) ∧
  (¬ Selected part → (processPart env id filenamePrefix part st).2 = st) ∧
  (∀ data,
     PersistedAs env id filenamePrefix part st data ↔
     Selected part ∧
     ∃ body, attachmentsGet env id (AttachmentId (Body part)) = Some body ∧
             Base64.DecodeString (Data body) = Some data ∧
             fault env (filenamePrefix +:+ "-" +:+ Filename part) = NoFault) ∧
  (∀ parts,
     attachmentRequests (emitted (forEach (processPart env id filenamePrefix) parts) st)
       = map (λ p, (id, AttachmentId (Body p))) (List.filter selectedb parts)) ∧
  invoiceFilenameRegex_MatchString "187008571923.pdf" = true ∧
  invoiceFilenameRegex_MatchString "invoice-187008571923.pdf" = false ∧
  invoiceFilenameRegex_MatchString "187008571923.txt" = false.
Proof.
  pose proof (selectedb_spec part) as Hsel.
  pose proof (processPart_cases env id filenamePrefix part st) as Hcases.
  cbv zeta in Hcases.
  split_and!; try reflexivity.
  - rewrite Hcases. repeat case_match; done.
  - unfold emitted. rewrite Hcases. rewrite <- Hsel.
    destruct (selectedb part); simpl.
    + repeat case_match; simpl; by rewrite drop_app_length.
    + by rewrite drop_all.
  - intros Hno. rewrite Hcases. destruct (selectedb part); [|done].
    destruct Hno. by apply Hsel.
  - intros data. unfold PersistedAs. rewrite Hcases, <- Hsel.
    destruct (selectedb part); simpl.
    + destruct_get; simpl.
      * destruct (Base64.DecodeString (Data body)) as [data'|] eqn:Hdec; simpl;
          try destruct_fault; simpl; split.
        all: try (intros [_ [=]]%state_eq_inv; fail).
        all: try (intros (_ & ? & [= <-] & ? & ?); congruence).
        intros [Hfiles _]%state_eq_inv. split; [done|]. exists body.
        split_and!; try done. f_equal.
        apply (f_equal (λ m, m !! (filenamePrefix +:+ "-" +:+ Filename part))) in Hfiles.
        rewrite !lookup_insert_eq in Hfiles. congruence.
      * split; [|by intros (_ & ? & ? & _)]. by intros [_ [=]]%state_eq_inv.
    + split; [|by intros [? _]]. destruct st as [fs tr]. simpl.
      rewrite <- (right_id_L [] (++) tr) at 1. by intros [_ [=]]%state_eq_inv.
  - intros parts.
    destruct (forEach_processPart env id filenamePrefix parts st)
      as (fs & evs & Hrun & Ha & _).
    rewrite (emitted_app _ _ evs); [done|]. by rewrite Hrun.
Qed.

Lemma C5_attachment_selection_witness :
  PersistedAs sampleEnv "m1" "2024-07-08-edp-100200300200-mafra" samplePdfPart
    emptyDisk "%PDF-".
Proof.
  destruct (C5_attachment_selection sampleEnv "m1" "2024-07-08-edp-100200300200-mafra"
              samplePdfPart emptyDisk) as (_ & Hreq & _ & Hsave & _).
  apply Hsave. split.
  - apply Hreq. reflexivity.
  - exists (mkBody "" "JVBERi0="). split_and!; reflexivity.
Defined.

(** A selected part whose attachment cannot be retrieved is requested but
    not persisted: the failure is logged and no file is written. *)
Lemma C5_selected_not_persisted :
  selectedb samplePdfPart = true ∧
  processPart sampleEnvNoAttachment "m1" "2024-07-08-edp-100200300200-mafra"
    samplePdfPart emptyDisk
  = (Done tt, mkState ∅ [AttachmentRequest "m1" "att-1";
                         Log "Unable to retrieve message attachment"]).
Proof. split; reflexivity. Qed.

(** A PDF part nested in a multipart part is not looked at. *)
Lemma nested_part_ignored :
  forEach (processPart sampleEnv "m1" "p")
    [mkPart "multipart/mixed" "" [] (mkBody "" "") [samplePdfPart]] emptyDisk
  = (Done tt, emptyDisk).
Proof. reflexivity. Qed.

(** ** The scan *)

Ltac requests :=
  unfold listRequests, fullRequests, progressIndices, attachmentRequests in *;
  rewrite ?omap_app; simpl;
  repeat match goal with H : omap _ _ = _ |- _ => rewrite H; clear H end;
  simpl.

(** One trip through the loop over the messages returns.  It requests the
    detail of its message and no page.  It prints a progress line with the
    current counter when the detail arrives, and it counts the message
    when the raw form arrives as well. *)
Lemma processMessage_spec (env : Env) (configuration : Configuration)
    (messageIndex : nat) (m : Message) (st : State) :
  ∃ messageIndex' fs evs,
    processMessage env configuration messageIndex m st
      = (Done messageIndex', mkState fs (trace st ++ evs)) ∧
    listRequests evs = [] ∧ fullRequests evs = [Id m] ∧
    match messagesGet env (Id m) "full", messagesGet env (Id m) "raw" with
    | None, _ => progressIndices evs = [] ∧ messageIndex' = messageIndex
    | Some _, None => progressIndices evs = [messageIndex] ∧ messageIndex' = messageIndex
    | Some _, Some _ => progressIndices evs = [messageIndex] ∧ messageIndex' = S messageIndex
    end.
Proof.
  unfold processMessage. run.
  destruct (messagesGet env (Id m) "full") as [msg|] eqn:Hfull; simpl.
  2: { eexists _, _, _. split; [by rewrite <- (assoc_L (++))|]. done. }
  destruct (scanHeaders (Headers (Payload msg))) as [from subject]. run.
  match goal with |- context [forEach ?f ?l ?s] =>
    destruct (forEach_processPart env (Id m)
                (filenamePrefix configuration
                   (formatDate (localZone env) (InternalDate msg)) (Id m) subject)
                (Parts (Payload msg)) s) as (fs & evs & -> & Ha & Hl & Hf & Hp)
  end.
  simpl. destruct (messagesGet env (Id m) "raw") as [rawMsg|] eqn:Hraw; simpl.
  - unfold saveRawMessage. destruct (Base64.DecodeString (Raw rawMsg)); run;
      try destruct_fault; simpl.
    all: eexists _, _, _; split; [rewrite <- !(assoc_L (++)); reflexivity|].
    all: requests; done.
  - eexists _, _, _; split; [rewrite <- !(assoc_L (++)); reflexivity|].
    requests; done.
Qed.

Lemma processMessages_spec (env : Env) (configuration : Configuration)
    (ms : list Message) (messageIndex : nat) (st : State) :
  ∃ messageIndex' fs evs,
    processMessages env configuration messageIndex ms st
      = (Done messageIndex', mkState fs (trace st ++ evs)) ∧
    listRequests evs = [] ∧ fullRequests evs = map Id ms.
Proof.
  revert messageIndex st. induction ms as [|m ms IH]; intros messageIndex st.
  - exists messageIndex, (files st), []. simpl.
    rewrite (right_id_L [] (++)). by destruct st.
  - simpl. unfold mbind, Run_bind.
    destruct (processMessage_spec env configuration messageIndex m st)
      as (i1 & fs1 & evs1 & -> & Hl1 & Hf1 & _).
    destruct (IH i1 (mkState fs1 (trace st ++ evs1)))
      as (i2 & fs2 & evs2 & -> & Hl2 & Hf2).
    simpl. exists i2, fs2, (evs1 ++ evs2).
    split; [by rewrite (assoc_L (++))|]. requests. done.
Qed.

Lemma scan_cons (env : Env) (configuration : Configuration) (q : string)
    (r : ListMessagesResponse) (responses : list (option ListMessagesResponse))
    (pageToken : string) (messageIndex : nat) :
  scan env configuration q (Some r :: responses) pageToken messageIndex
  = (emit (ListRequest q (pageTokenParam pageToken)) ;;
     if decide (length (Messages r) = 0%nat) then mret tt
     else
       messageIndex ← processMessages env configuration messageIndex (Messages r);
       if decide (NextPageToken r = "") then mret tt
       else scan env configuration q responses (NextPageToken r) messageIndex).
Proof. reflexivity. Qed.

Lemma scan_empty_page (env : Env) (configuration : Configuration) (q : string)
    (r : ListMessagesResponse) (responses : list (option ListMessagesResponse))
    (pageToken : string) (messageIndex : nat) (st : State) :
  Messages r = [] →
  scan env configuration q (Some r :: responses) pageToken messageIndex st
  = (Done tt, mkState (files st) (trace st ++ [ListRequest q (pageTokenParam pageToken)])).
Proof. intros Hr. rewrite scan_cons. run. by rewrite Hr. Qed.

Lemma scan_next_page (env : Env) (configuration : Configuration) (q : string)
    (r : ListMessagesResponse) (responses : list (option ListMessagesResponse))
    (pageToken : string) (messageIndex messageIndex' : nat) (st st' : State) :
  Messages r ≠ [] → NextPageToken r ≠ "" →
  processMessages env configuration messageIndex (Messages r)
    (mkState (files st) (trace st ++ [ListRequest q (pageTokenParam pageToken)]))
    = (Done messageIndex', st') →
  scan env configuration q (Some r :: responses) pageToken messageIndex st
  = scan env configuration q responses (NextPageToken r) messageIndex' st'.
Proof.
  intros Hr Htok Hrun. rewrite scan_cons. unfold mbind, Run_bind, emit.
  destruct (decide (length (Messages r) = 0%nat)) as [Hlen|_].
  { by apply length_zero_iff_nil in Hlen. }
  rewrite Hrun. by rewrite decide_False.
Qed.

(** C2: with pages of 2, 2 and 0 messages and the continuation tokens A, B
    and none, the scan sends three list requests (without token, with A,
    with B), asks for the detail of the four messages in the order of the
    pages, and returns without using any further answer; a first page
    without messages ends the scan after one request, with nothing
    processed and no error. *)
Theorem C2_pagination (env : Env) (configuration : Configuration) (q : string)
    (a1 a2 b1 b2 : Message) (A B : string)
    (rest : list (option ListMessagesResponse)) (st : State) :
  A ≠ "" → B ≠ "" →
  (scan env configuration q (threePages a1 a2 b1 b2 A B ++ rest) "" 0 st).1 = Done tt ∧
  listRequests
    (emitted (scan env configuration q (threePages a1 a2 b1 b2 A B ++ rest) "" 0) st)
    = [(q, None); (q, Some A); (q, Some B)] ∧
  fullRequests
    (emitted (scan env configuration q (threePages a1 a2 b1 b2 A B ++ rest) "" 0) st)
    = [Id a1; Id a2; Id b1; Id b2] ∧
  (∀ token, scan env configuration q (Some (mkPage [] token) :: rest) "" 0 st
            = (Done tt, mkState (files st) (trace st ++ [ListRequest q None]))).
Proof.
  intros HA HB.
  destruct (processMessages_spec env configuration [a1; a2] 0%nat
              (mkState (files st) (trace st ++ [ListRequest q (pageTokenParam "")])))
    as (i1 & fs1 & evs1 & Hrun1 & Hl1 & Hf1).
  cbn [files trace] in Hrun1.
  set (st1 := mkState fs1 ((trace st ++ [ListRequest q (pageTokenParam "")]) ++ evs1)) in *.
  destruct (processMessages_spec env configuration [b1; b2] i1
              (mkState (files st1) (trace st1 ++ [ListRequest q (pageTokenParam A)])))
    as (i2 & fs2 & evs2 & Hrun2 & Hl2 & Hf2).
  cbn [files trace] in Hrun2.
  set (st2 := mkState fs2 ((trace st1 ++ [ListRequest q (pageTokenParam A)]) ++ evs2)) in *.
  assert (scan env configuration q (threePages a1 a2 b1 b2 A B ++ rest) "" 0 st
          = (Done tt,
             mkState fs2 (trace st ++ [ListRequest q None] ++ evs1
                            ++ [ListRequest q (Some A)] ++ evs2
                            ++ [ListRequest q (Some B)]))) as Hscan.
  { unfold threePages. cbn [app].
    rewrite (scan_next_page env configuration q (mkPage [a1; a2] A) _ "" 0 i1 st st1
               ltac:(done) HA Hrun1).
    cbn [NextPageToken].
    rewrite (scan_next_page env configuration q (mkPage [b1; b2] B) _ A i1 i2 st1 st2
               ltac:(done) HB Hrun2).
    rewrite scan_empty_page by done. subst st1 st2. cbn [files trace NextPageToken].
    unfold pageTokenParam. repeat case_decide; try done.
    by rewrite <- !(assoc_L (++)). }
  split_and!.
  - by rewrite Hscan.
  - rewrite (emitted_app _ _ _ (f_equal (λ r, trace r.2) Hscan)). requests. done.
  - rewrite (emitted_app _ _ _ (f_equal (λ r, trace r.2) Hscan)). requests. done.
  - intros token. by rewrite scan_empty_page.
Qed.

Lemma C2_pagination_witness :
  listRequests
    (emitted (scan sampleEnv emptyConfiguration "from:faturaedp@edp.pt has:attachment"
                (threePages (sampleDetail "m1") (sampleDetail "m2")
                            (sampleDetail "m3") (sampleDetail "m4") "A" "B" ++ []) "" 0)
             emptyDisk)
  = [("from:faturaedp@edp.pt has:attachment", None);
     ("from:faturaedp@edp.pt has:attachment", Some "A");
     ("from:faturaedp@edp.pt has:attachment", Some "B")].
Proof.
  apply (C2_pagination sampleEnv emptyConfiguration "from:faturaedp@edp.pt has:attachment"
           (sampleDetail "m1") (sampleDetail "m2") (sampleDetail "m3") (sampleDetail "m4")
           "A" "B" [] emptyDisk); discriminate.
Defined.

(** ** The progress counter *)

(** C4 on a page of two messages, the raw form of the first of which cannot
    be retrieved: both progress lines carry the counter 0.  In general a
    trip through the loop prints the current counter once the detail of
    the message has arrived, and leaves the counter as it is when the raw
    form cannot be retrieved. *)
Theorem C4_progress_counter_repeats :
  messagesGet sampleEnv "m1" "raw" = None ∧
  (main sampleEnv sampleDisk).1 = Done tt ∧
  progressIndices (emitted (main sampleEnv) sampleDisk) = [0; 0]%nat ∧
  progressLines (emitted (main sampleEnv) sampleDisk)
    = ["#00000000 m1 2024-07-08 faturaedp@edp.pt: A sua fatura EDP (contrato 100200300200)"
         +:+ String Str.lf "";
       "#00000000 m2 2024-07-08 faturaedp@edp.pt: A sua fatura EDP (contrato 100200300200)"
         +:+ String Str.lf ""] ∧
  (∀ env configuration messageIndex m st msg,
     messagesGet env (Id m) "full" = Some msg →
     messagesGet env (Id m) "raw" = None →
     (processMessage env configuration messageIndex m st).1 = Done messageIndex ∧
     progressIndices (emitted (processMessage env configuration messageIndex m) st)
       = [messageIndex]).
Proof.
  split_and!; [by vm_compute..|].
  intros env configuration messageIndex m st msg Hfull Hraw.
  destruct (processMessage_spec env configuration messageIndex m st)
    as (i & fs & evs & Hrun & _ & _ & Hcount).
  rewrite Hfull, Hraw in Hcount. destruct Hcount as [Hp ->].
  rewrite (emitted_app _ _ evs) by (by rewrite Hrun). by rewrite Hrun.
Qed.

(** ** Queries *)

Lemma snoc_app (s : string) (c : ascii) (t : string) :
  snoc s c +:+ t = s +:+ String c t.
Proof. unfold snoc. by rewrite app_assoc', app_cons, app_empty_l. Qed.

Lemma any_cons_false (f : ascii → bool) (c : ascii) (s : string) :
  Str.any f (String c s) = false ↔ f c = false ∧ Str.any f s = false.
Proof. simpl. apply orb_false_iff. Qed.

Lemma noColon_cons (c : ascii) (s : string) :
  noColon (String c s) = true ↔ c ≠ Str.colon ∧ noColon s = true.
Proof.
  unfold noColon. rewrite !negb_true_iff, any_cons_false, bool_decide_eq_false. done.
Qed.

Lemma noQuote_cons (c : ascii) (s : string) :
  noQuote (String c s) = true ↔ c ≠ Str.quote ∧ noQuote s = true.
Proof.
  unfold noQuote. rewrite !negb_true_iff, any_cons_false, bool_decide_eq_false. done.
Qed.

Lemma containsSpaceOrColon_cons (c : ascii) (s : string) :
  containsSpaceOrColon (String c s) = false ↔
  (c ≠ Str.space ∧ c ≠ Str.colon) ∧ containsSpaceOrColon s = false.
Proof.
  unfold containsSpaceOrColon. rewrite any_cons_false, bool_decide_eq_false.
  split; [intros [Hc ?]|intros [[? ?] ?]]; (split; [|done]); tauto.
Qed.

Lemma parseFrom_key (k0 k rest : string) :
  noColon k = true →
  parseFrom (InKey k0) (k +:+ String Str.colon rest) = parseFrom (AtValue (k0 +:+ k)) rest.
Proof.
  revert k0. induction k as [|c k IH]; intros k0 Hk.
  - rewrite app_empty_l, app_empty_r. simpl. rewrite ?decide_True by done. done.
  - apply noColon_cons in Hk as [Hc Hk]. rewrite app_cons. simpl.
    rewrite decide_False by done. rewrite IH by done. by rewrite snoc_app.
Qed.

Lemma parseFrom_bare_then (k v0 v rest : string) :
  containsSpaceOrColon v = false →
  parseFrom (InBare k v0) (v +:+ String Str.space rest)
  = (k, v0 +:+ v) :: parseFrom (InKey "") rest.
Proof.
  revert v0. induction v as [|c v IH]; intros v0 Hv.
  - rewrite app_empty_l, app_empty_r. simpl. rewrite ?decide_True by done. done.
  - apply containsSpaceOrColon_cons in Hv as [[Hc _] Hv]. rewrite app_cons. simpl.
    rewrite decide_False by done. rewrite IH by done. by rewrite snoc_app.
Qed.

Lemma parseFrom_bare_end (k v0 v : string) :
  containsSpaceOrColon v = false →
  parseFrom (InBare k v0) v = [(k, v0 +:+ v)].
Proof.
  revert v0. induction v as [|c v IH]; intros v0 Hv.
  - by rewrite app_empty_r.
  - apply containsSpaceOrColon_cons in Hv as [[Hc _] Hv]. simpl.
    rewrite decide_False by done. rewrite IH by done. by rewrite snoc_app.
Qed.

Lemma parseFrom_quoted (k v0 v rest : string) :
  noQuote v = true →
  parseFrom (InQuoted k v0) (v +:+ String Str.quote rest)
  = (k, v0 +:+ v) :: parseFrom AfterQuoted rest.
Proof.
  revert v0. induction v as [|c v IH]; intros v0 Hv.
  - rewrite app_empty_l, app_empty_r. simpl. rewrite ?decide_True by done. done.
  - apply noQuote_cons in Hv as [Hc Hv]. rewrite app_cons. simpl.
    rewrite decide_False by done. rewrite IH by done. by rewrite snoc_app.
Qed.

Lemma space_not_quote : Str.space ≠ Str.quote.
Proof. discriminate. Qed.

(** The reader takes the pair of an entry off the front of a query. *)
Lemma parseFrom_pair_then (kv : string * string) (rest : string) :
  noColon kv.1 = true → noQuote kv.2 = true →
  parseFrom (InKey "") (encodePair kv +:+ " " +:+ rest)
  = kv :: parseFrom (InKey "") rest.
Proof.
  destruct kv as [k v]. simpl. intros Hk Hv. unfold encodePair. simpl.
  destruct (containsSpaceOrColon v) eqn:Hsc.
  - rewrite !app_assoc', !app_cons, !app_empty_l.
    rewrite (parseFrom_key "" k) by done. rewrite app_empty_l. simpl.
    rewrite ?decide_True by done. rewrite !app_assoc', !app_cons, !app_empty_l.
    rewrite parseFrom_quoted by done. by rewrite app_empty_l.
  - rewrite !app_assoc', !app_cons, !app_empty_l.
    rewrite (parseFrom_key "" k) by done. rewrite app_empty_l.
    destruct v as [|c v].
    + rewrite app_empty_l. simpl. rewrite ?decide_False by apply space_not_quote.
      rewrite ?decide_True by done. done.
    + apply noQuote_cons in Hv as [Hq Hv].
      apply containsSpaceOrColon_cons in Hsc as [[Hs _] Hsc].
      rewrite app_cons. simpl. rewrite !decide_False by done.
      by rewrite parseFrom_bare_then.
Qed.

Lemma parseFrom_pair_end (kv : string * string) :
  noColon kv.1 = true → noQuote kv.2 = true →
  parseFrom (InKey "") (encodePair kv) = [kv].
Proof.
  destruct kv as [k v]. simpl. intros Hk Hv. unfold encodePair. simpl.
  destruct (containsSpaceOrColon v) eqn:Hsc.
  - rewrite !app_cons, !app_empty_l.
    rewrite (parseFrom_key "" k) by done. rewrite app_empty_l. simpl.
    rewrite ?decide_True by done.
    rewrite parseFrom_quoted by done. by rewrite app_empty_l.
  - rewrite !app_cons, !app_empty_l.
    rewrite (parseFrom_key "" k) by done. rewrite app_empty_l.
    destruct v as [|c v]; [done|].
    apply noQuote_cons in Hv as [Hq Hv].
    apply containsSpaceOrColon_cons in Hsc as [[Hs _] Hsc].
    simpl. rewrite !decide_False by done.
    by rewrite parseFrom_bare_end.
Qed.

Lemma parseQuery_join (entries : list (string * string)) :
  Forall (λ kv, noColon kv.1 = true ∧ noQuote kv.2 = true) entries →
  parseQuery (Str.join (map encodePair entries) " ") = entries.
Proof.
  unfold parseQuery. induction entries as [|kv entries IH]; [done|].
  intros [[Hk Hv] Hrest]%Forall_cons. specialize (IH Hrest).
  destruct entries as [|kv' entries].
  - simpl. by apply parseFrom_pair_end.
  - change (Str.join (map encodePair (kv :: kv' :: entries)) " ")
      with (encodePair kv +:+ " " +:+ Str.join (map encodePair (kv' :: entries)) " ").
    rewrite parseFrom_pair_then by done. by rewrite IH.
Qed.

Lemma fold_left_encodeEntry (entries : list (string * string)) (queries : list string) :
  fold_left encodeEntry entries queries = queries ++ map encodePair entries.
Proof.
  revert queries. induction entries as [|[k v] entries IH]; intros queries; simpl.
  - by rewrite (right_id_L [] (++)).
  - rewrite IH. unfold encodeEntry, encodePair. simpl.
    destruct (containsSpaceOrColon v); by rewrite <- (assoc_L (++)).
Qed.

Lemma encodeQueryIn_join (entries : list (string * string)) :
  encodeQueryIn entries = Str.join (map encodePair entries) " ".
Proof. unfold encodeQueryIn. by rewrite fold_left_encodeEntry. Qed.

(** C3 as the code has it: [encodeQuery] emits one pair per entry, quoted
    when the value contains a space or a colon and bare otherwise, joined
    by spaces; reading the query back recovers the mapping when no field
    name holds a colon and no value holds a double quote. *)
Theorem C3_encodeQuery_roundtrip (params : gmap string string) (q : string) :
  encodeQuery params q →
  (∃ entries, entries ≡ₚ map_to_list params ∧
              q = Str.join (map encodePair entries) " ") ∧
  (Readable params → list_to_map (parseQuery q) = params).
Proof.
  intros (entries & Hperm & ->). rewrite encodeQueryIn_join. split.
  - by exists entries.
  - intros Hok. rewrite parseQuery_join.
    + transitivity (list_to_map (map_to_list params) : gmap string string);
        [|apply list_to_map_to_list].
      apply list_to_map_proper; [|done].
      rewrite Hperm. apply NoDup_fst_map_to_list.
    + apply map_Forall_to_list in Hok. rewrite <- Hperm in Hok.
      eapply Forall_impl; [exact Hok|]. by intros [k v].
Qed.

Lemma C3_encodeQuery_roundtrip_witness :
  list_to_map (parseQuery "from:faturaedp@edp.pt has:attachment") = searchParams.
Proof.
  apply (C3_encodeQuery_roundtrip searchParams "from:faturaedp@edp.pt has:attachment").
  - exists [("from", "faturaedp@edp.pt"); ("has", "attachment")]. split; reflexivity.
  - apply (bool_decide_unpack _). vm_compute. exact I.
Defined.

(** A value that holds a double quote breaks the round trip: the mapping
    with that one entry and a mapping with two entries have the same
    encoding, so no reader recovers both, and the reader above returns
    the second. *)
Lemma C3_encoding_collision :
  encodeQuery oneEntry (encodeQueryIn [("a", quotedValue)]) ∧
  encodeQuery twoEntries (encodeQueryIn [("a", quotedValue)]) ∧
  list_to_map (parseQuery (encodeQueryIn [("a", quotedValue)])) = twoEntries ∧
  oneEntry !! "b" = None ∧ twoEntries !! "b" = Some "z w".
Proof.
  split_and!.
  - exists [("a", quotedValue)]. split; reflexivity.
  - exists [("a", "x y"); ("b", "z w")]. split; reflexivity.
  - reflexivity.
  - reflexivity.
  - reflexivity.
Qed.

(** * Further properties *)

(** ** Headers *)

Lemma scanHeaders_snoc (headers : list MessagePartHeader) (h : MessagePartHeader) :
  scanHeaders (headers ++ [h]) =
    let '(from, subject) := scanHeaders headers in
    if decide (Name h = "Subject") then (from, Value h)
    else if decide (Name h = "From") then (Value h, subject)
    else (from, subject).
Proof.
  unfold scanHeaders. rewrite fold_left_app. simpl.
  by destruct (fold_left _ headers _).
Qed.

Lemma lastValue_snoc (name : string) (headers : list MessagePartHeader)
    (h : MessagePartHeader) :
  lastValue name (headers ++ [h]) =
    if decide (Name h = name) then Value h else lastValue name headers.
Proof.
  unfold lastValue. rewrite List.filter_app. simpl.
  destruct (decide (Name h = name)) as [Hn|Hn].
  - rewrite bool_decide_eq_true_2 by done. rewrite map_app. simpl. by rewrite last_snoc.
  - rewrite bool_decide_eq_false_2 by done. by rewrite (right_id_L [] (++)).
Qed.

(** X1: the sender and the subject of a message are the values of the last
    header named exactly [From] and of the last header named exactly
    [Subject]; a header that is missing gives the empty string. *)
Theorem scanHeaders_last_wins (headers : list MessagePartHeader) :
  scanHeaders headers = (lastValue "From" headers, lastValue "Subject" headers).
Proof.
  induction headers as [|h headers IH] using rev_ind; [done|].
  rewrite scanHeaders_snoc, IH, !lastValue_snoc.
  destruct (decide (Name h = "Subject")) as [Hs|Hs].
  - rewrite decide_False; [done|]. rewrite Hs. discriminate.
  - by destruct (decide (Name h = "From")).
Qed.

(** ** Messages of a page *)

Lemma processMessages_cons (env : Env) (configuration : Configuration)
    (messageIndex : nat) (m : Message) (ms : list Message) :
  processMessages env configuration messageIndex (m :: ms)
  = (messageIndex ← processMessage env configuration messageIndex m;
     processMessages env configuration messageIndex ms).
Proof. reflexivity. Qed.

(** X2: a failure on one message never stops the page.  The loop over the
    messages of a page always returns and asks for the detail of every
    message once, in order; a message whose detail cannot be retrieved is
    skipped: it writes no file, prints no progress line and leaves the
    counter as it is. *)
Theorem message_failure_is_isolated (env : Env) (configuration : Configuration)
    (messageIndex : nat) (m : Message) (ms : list Message) (st : State) :
  (∃ messageIndex' fs evs,
     processMessages env configuration messageIndex (m :: ms) st
       = (Done messageIndex', mkState fs (trace st ++ evs)) ∧
     fullRequests evs = map Id (m :: ms)) ∧
  (messagesGet env (Id m) "full" = None →
   processMessages env configuration messageIndex (m :: ms) st
   = processMessages env configuration messageIndex ms
       (mkState (files st)
          (trace st ++ [GetRequest (Id m) "full"; Log "Unable to retrieve message"]))).
Proof.
  split.
  - destruct (processMessages_spec env configuration (m :: ms) messageIndex st)
      as (i & fs & evs & Hrun & _ & Hfull).
    by exists i, fs, evs.
  - intros Hfull. rewrite processMessages_cons. unfold processMessage.
    rewrite Hfull. run. by rewrite <- (assoc_L (++)).
Qed.

Lemma message_failure_is_isolated_witness :
  processMessages sampleEnv emptyConfiguration 0
    [mkMessage "gone" 0 (mkPart "" "" [] (mkBody "" "") []) ""; sampleDetail "m2"] emptyDisk
  = processMessages sampleEnv emptyConfiguration 0 [sampleDetail "m2"]
      (mkState ∅ [GetRequest "gone" "full"; Log "Unable to retrieve message"]).
Proof.
  apply (message_failure_is_isolated sampleEnv emptyConfiguration 0
           (mkMessage "gone" 0 (mkPart "" "" [] (mkBody "" "") []) "")
           [sampleDetail "m2"] emptyDisk).
  reflexivity.
Defined.

(** ** Pages *)

Lemma scan_nil (env : Env) (configuration : Configuration) (q : string)
    (pageToken : string) (messageIndex : nat) (st : State) :
  scan env configuration q [] pageToken messageIndex st
  = (Hung, mkState (files st) (trace st ++ [ListRequest q (pageTokenParam pageToken)])).
Proof. reflexivity. Qed.

Lemma scan_error (env : Env) (configuration : Configuration) (q : string)
    (responses : list (option ListMessagesResponse))
    (pageToken : string) (messageIndex : nat) (st : State) :
  scan env configuration q (None :: responses) pageToken messageIndex st
  = (Fatal, mkState (files st)
              (trace st ++ [ListRequest q (pageTokenParam pageToken);
                            Log "Unable to retrieve messages"])).
Proof. simpl. run. by rewrite <- (assoc_L (++)). Qed.

Lemma scan_last_page (env : Env) (configuration : Configuration) (q : string)
    (r : ListMessagesResponse) (responses : list (option ListMessagesResponse))
    (pageToken : string) (messageIndex messageIndex' : nat) (st st' : State) :
  Messages r ≠ [] → NextPageToken r = "" →
  processMessages env configuration messageIndex (Messages r)
    (mkState (files st) (trace st ++ [ListRequest q (pageTokenParam pageToken)]))
    = (Done messageIndex', st') →
  scan env configuration q (Some r :: responses) pageToken messageIndex st
  = (Done tt, st').
Proof.
  intros Hr Htok Hrun. rewrite scan_cons. unfold mbind, Run_bind, emit.
  destruct (decide (length (Messages r) = 0%nat)) as [Hlen|_].
  { by apply length_zero_iff_nil in Hlen. }
  rewrite Hrun. by rewrite decide_True.
Qed.

Lemma continues_no_messages (r : ListMessagesResponse) :
  Messages r = [] → continues r = false.
Proof. intros Hr. unfold continues. by rewrite bool_decide_eq_true_2. Qed.

Lemma continues_no_token (r : ListMessagesResponse) :
  NextPageToken r = "" → continues r = false.
Proof.
  intros Hr. unfold continues. rewrite (bool_decide_eq_true_2 (NextPageToken r = "")) by done.
  apply andb_false_r.
Qed.

Lemma continues_true (r : ListMessagesResponse) :
  Messages r ≠ [] → NextPageToken r ≠ "" → continues r = true.
Proof. intros Hm Ht. unfold continues. by rewrite !bool_decide_eq_false_2. Qed.

(** X3: the scan for any sequence of answers.  It reads the pages up to the
    first one that has no messages or no continuation token, sends one
    list request per page read, each with the token of the page before
    (none for the first), and asks for the detail of the messages of the
    pages read, in order.  It returns normally at that page, exits when an
    answer is an error, and waits when the answers run out. *)
Theorem scan_pages (env : Env) (configuration : Configuration) (q : string)
    (responses : list (option ListMessagesResponse))
    (pageToken : string) (messageIndex : nat) (st : State) :
  ∃ fs evs,
    scan env configuration q responses pageToken messageIndex st
      = (scanResult responses, mkState fs (trace st ++ evs)) ∧
    listRequests evs
      = map (λ t, (q, pageTokenParam t)) (tokensSent pageToken responses) ∧
    fullRequests evs
      = concat (map (λ r, map Id (Messages r)) (pagesRead responses)).
Proof.
  revert pageToken messageIndex st.
  induction responses as [|[r|] responses IH]; intros pageToken messageIndex st.
  - rewrite scan_nil. by eexists _, _.
  - destruct (decide (Messages r = [])) as [Hms|Hms].
    { rewrite scan_empty_page by done. eexists _, _. simpl.
      rewrite (continues_no_messages r Hms), Hms. done. }
    destruct (processMessages_spec env configuration (Messages r) messageIndex
                (mkState (files st)
                   (trace st ++ [ListRequest q (pageTokenParam pageToken)])))
      as (i1 & fs1 & evs1 & Hrun & Hl1 & Hf1).
    cbn [files trace] in Hrun.
    destruct (decide (NextPageToken r = "")) as [Htok|Htok].
    + exists fs1, (ListRequest q (pageTokenParam pageToken) :: evs1).
      rewrite (scan_last_page _ _ _ _ _ _ _ _ _ _ Hms Htok Hrun).
      simpl. rewrite (continues_no_token r Htok). split_and!.
      * by rewrite <- (assoc_L (++)).
      * requests. done.
      * requests. simpl. by rewrite (right_id_L [] (++)).
    + destruct (IH (NextPageToken r) i1
                  (mkState fs1 ((trace st ++ [ListRequest q (pageTokenParam pageToken)])
                                ++ evs1)))
        as (fs2 & evs2 & Hrest & Hl2 & Hf2).
      exists fs2, (ListRequest q (pageTokenParam pageToken) :: evs1 ++ evs2).
      rewrite (scan_next_page _ _ _ _ _ _ _ _ _ _ Hms Htok Hrun), Hrest.
      simpl. rewrite (continues_true r Hms Htok). split_and!.
      * by rewrite <- !(assoc_L (++)).
      * requests. done.
      * requests. done.
  - rewrite scan_error. by eexists _, _.
Qed.

(** ** The progress counter over a page *)

Lemma detailed_cons (env : Env) (m : Message) (ms : list Message) :
  detailed env (m :: ms) =
    match messagesGet env (Id m) "full" with
    | Some _ => m :: detailed env ms
    | None => detailed env ms
    end.
Proof.
  unfold detailed. simpl. destruct (messagesGet env (Id m) "full").
  - by rewrite bool_decide_eq_true_2 by done.
  - rewrite bool_decide_eq_false_2; [done|]. by intros [? ?].
Qed.

(** The counters printed over a page: one per message whose detail
    arrives, starting at the counter before the page, never decreasing,
    and consecutive when every such message also delivers its raw form. *)
Lemma processMessages_counter (env : Env) (configuration : Configuration)
    (ms : list Message) (messageIndex : nat) (st : State) :
  ∃ messageIndex' fs evs,
    processMessages env configuration messageIndex ms st
      = (Done messageIndex', mkState fs (trace st ++ evs)) ∧
    length (progressIndices evs) = length (detailed env ms) ∧
    Forall (λ i, messageIndex ≤ i ≤ messageIndex')%nat (progressIndices evs) ∧
    StronglySorted le (progressIndices evs) ∧
    (messageIndex ≤ messageIndex' ≤ messageIndex + length (detailed env ms))%nat ∧
    (Forall (λ m, is_Some (messagesGet env (Id m) "full") →
                  is_Some (messagesGet env (Id m) "raw")) ms →
     progressIndices evs = seq messageIndex (length (detailed env ms)) ∧
     messageIndex' = (messageIndex + length (detailed env ms))%nat).
Proof.
  revert messageIndex st. induction ms as [|m ms IH]; intros messageIndex st.
  - exists messageIndex, (files st), []. simpl. rewrite (right_id_L [] (++)).
    split_and!; try done; try (by destruct st); try constructor; lia.
  - rewrite processMessages_cons. unfold mbind, Run_bind.
    destruct (processMessage_spec env configuration messageIndex m st)
      as (i1 & fs1 & evs1 & -> & _ & _ & Hm).
    destruct (IH i1 (mkState fs1 (trace st ++ evs1)))
      as (i2 & fs2 & evs2 & -> & Hlen & Hall & Hsort & Hle & Hcons).
    cbn [files trace]. exists i2, fs2, (evs1 ++ evs2).
    split; [by rewrite (assoc_L (++))|].
    rewrite detailed_cons. unfold progressIndices in *. rewrite omap_app.
    destruct (messagesGet env (Id m) "full") as [msg|] eqn:Hfull.
    + assert (omap (λ e, match e with Progress i _ _ _ _ => Some i | _ => None end) evs1
              = [messageIndex] ∧ (messageIndex ≤ i1 ≤ S messageIndex)%nat ∧
              (is_Some (messagesGet env (Id m) "raw") → i1 = S messageIndex))
        as (Hp & Hi1 & Hraw).
      { destruct (messagesGet env (Id m) "raw"); destruct Hm as [-> ->];
          split_and!; try done; try lia; by intros [? ?]. }
      rewrite Hp. simpl. split_and!.
      * by rewrite Hlen.
      * constructor; [lia|]. eapply Forall_impl; [exact Hall|]. simpl. lia.
      * constructor; [done|]. eapply Forall_impl; [exact Hall|]. simpl. lia.
      * lia.
      * lia.
      * intros [Hm1 Hrest]%Forall_cons.
        assert (is_Some (messagesGet env (Id m) "raw")) as Hr
          by (apply Hm1; rewrite ?Hfull; by eexists).
        specialize (Hraw Hr). subst i1. destruct (Hcons Hrest) as [-> ->]. split; [done|lia].
    + destruct Hm as [-> ->]. simpl. split_and!; try done; try lia.
      intros [_ Hrest]%Forall_cons. by apply Hcons.
Qed.


(** X5: when every message of a page whose detail arrives also delivers
    its raw form, the progress lines of the page carry consecutive
    counters, from the counter before the page on, and the counter after
    the page has advanced by their number. *)
Theorem progress_counter_consecutive (env : Env) (configuration : Configuration)
    (ms : list Message) (messageIndex : nat) (st : State) :
  Forall (λ m, is_Some (messagesGet env (Id m) "full") →
               is_Some (messagesGet env (Id m) "raw")) ms →
  (processMessages env configuration messageIndex ms st).1
    = Done (messageIndex + length (detailed env ms))%nat ∧
  progressIndices (emitted (processMessages env configuration messageIndex ms) st)
    = seq messageIndex (length (detailed env ms)).
Proof.
  intros Hraw.
  destruct (processMessages_counter env configuration ms messageIndex st)
    as (i & fs & evs & Hrun & _ & _ & _ & _ & Hcons).
  destruct (Hcons Hraw) as [Hp ->].
  rewrite (emitted_app _ _ evs) by (by rewrite Hrun). by rewrite Hrun.
Qed.

Lemma progress_counter_consecutive_witness :
  progressIndices
    (emitted (processMessages sampleEnv emptyConfiguration 7
                [sampleDetail "m2"; sampleDetail "gone"; sampleDetail "m3"]) emptyDisk)
  = [7; 8]%nat.
Proof.
  apply (progress_counter_consecutive sampleEnv emptyConfiguration
           [sampleDetail "m2"; sampleDetail "gone"; sampleDetail "m3"] 7 emptyDisk).
  apply List.Forall_cons; [intros _; eexists; reflexivity|].
  apply List.Forall_cons; [intros [? H]; by vm_compute in H|].
  apply List.Forall_cons; [intros _; eexists; reflexivity|].
  apply List.Forall_nil.
Defined.

(** ** Files written *)

(** X6: a file saved without error reads back as the decoded bytes, and no
    other file has changed: when [saveRawMessage] or [saveAttachment]
    returns nil, the input decodes, reading [filename] returns exactly
    the decoded bytes, and every other path holds what it held. *)
Theorem saved_file_reads_back (env : Env) (filename rawContent : string)
    (part : MessagePartBody) (st st' : State) :
  (saveRawMessage env filename rawContent st = (Done None, st') →
   ∃ data, Base64.DecodeString rawContent = Some data ∧
           ReadFile env filename st' = (Done (Val data), st') ∧
           ∀ other, other ≠ filename → files st' !! other = files st !! other) ∧
  (saveAttachment env filename part st = (Done None, st') →
   ∃ data, Base64.DecodeString (Data part) = Some data ∧
           ReadFile env filename st' = (Done (Val data), st') ∧
           ∀ other, other ≠ filename → files st' !! other = files st !! other).
Proof.
  split.
  - unfold saveRawMessage. destruct (Base64.DecodeString rawContent) as [data|]; [|done].
    run. destruct (fault env filename) eqn:Hf; simpl; intros [= <-]. exists data.
    split_and!; [done| |].
    + cbn [files]. by rewrite lookup_insert_eq.
    + intros other Hne. simpl. by rewrite lookup_insert_ne.
  - unfold saveAttachment. destruct (Base64.DecodeString (Data part)) as [data|]; [|done].
    run. destruct (fault env filename) eqn:Hf; simpl; intros [= <-]. exists data.
    split_and!; [done| |].
    + cbn [files]. by rewrite lookup_insert_eq.
    + intros other Hne. simpl. by rewrite lookup_insert_ne.
Qed.

Lemma saved_file_reads_back_witness :
  ∃ data, Base64.DecodeString "RnJvbTogRURQ" = Some data ∧
          ReadFile sampleEnv "m.eml" (mkState {[ "m.eml" := "From: EDP" ]} [])
            = (Done (Val data), mkState {[ "m.eml" := "From: EDP" ]} []) ∧
          ∀ other, other ≠ "m.eml" →
            files (mkState {[ "m.eml" := "From: EDP" ]} []) !! other
            = files emptyDisk !! other.
Proof.
  apply (saved_file_reads_back sampleEnv "m.eml" "RnJvbTogRURQ" (mkBody "" "")
           emptyDisk (mkState {[ "m.eml" := "From: EDP" ]} [])).
  reflexivity.
Defined.

(** ** Timestamps *)

Lemma Unix_floor (internalDateMs : Z) :
  GoTime.Unix (Z.quot internalDateMs 1000) (Z.rem internalDateMs 1000 * 1000000)
  = (internalDateMs / 1000, internalDateMs mod 1000 * 1000000).
Proof.
  unfold GoTime.Unix.
  destruct (Z.ltb_spec (Z.rem internalDateMs 1000 * 1000000) 0);
    destruct (Z.leb_spec 1000000000 (Z.rem internalDateMs 1000 * 1000000));
    cbn [orb]; cbv zeta;
    try match goal with |- context [?a <? 0] => destruct (Z.ltb_spec a 0) end.
  all: f_equal; Z.to_euclidean_division_equations; lia.
Qed.

(** X7: the date depends on the whole seconds only, rounded down also
    before the epoch: [formatDate] is the local date of the second
    [floor (ms / 1000)].  In a zone with a fixed offset of [off] seconds
    it is the UTC date of the timestamp moved by [1000 * off]
    milliseconds. *)
Theorem formatDate_floor_seconds (tz : Z → Z) (off internalDateMs : Z) :
  formatDate tz internalDateMs
    = GoTime.Format_2006_01_02 tz (internalDateMs / 1000, internalDateMs mod 1000 * 1000000) ∧
  formatDate (λ _, off) internalDateMs
    = formatDate (λ _, 0) (internalDateMs + 1000 * off).
Proof.
  unfold formatDate. rewrite !Unix_floor. split; [done|].
  unfold GoTime.Format_2006_01_02, GoTime.localDate. simpl.
  replace ((internalDateMs + 1000 * off) / 1000 + 0) with (internalDateMs / 1000 + off);
    [done|].
  rewrite (Z.mul_comm 1000 off), Z.div_add by lia. lia.
Qed.

(** ** Start-up *)

(** X8: [getConfiguration] never changes the state, and it returns an
    error exactly when the file exists and either cannot be read or is
    rejected by the YAML reader; a file that exists, can be read and is
    accepted gives the configuration the reader returns. *)
Theorem getConfiguration_cases (env : Env) (filename : string) (st : State) :
  ∃ r,
    getConfiguration env filename st = (Done r, st) ∧
    ((∃ e, r = Err e) ↔
       ∃ yamlData, files st !! filename = Some yamlData ∧
                   (fault env filename = CannotOpen ∨ yamlUnmarshal env yamlData = None)) ∧
    (∀ yamlData config,
       files st !! filename = Some yamlData → fault env filename ≠ CannotOpen →
       yamlUnmarshal env yamlData = Some config → r = Val config).
Proof.
  unfold getConfiguration. run.
  destruct (files st !! filename) as [yamlData|] eqn:Hfile; simpl.
  - destruct (fault env filename) eqn:Hf; simpl;
      try (destruct (yamlUnmarshal env yamlData) as [config|] eqn:Hyaml; simpl);
      eexists; (split; [reflexivity|]); split.
    all: try (split; [intros [e [=]]|intros (y & [= <-] & [?|?]); congruence]).
    all: try (split; [intros _; exists yamlData; split; [done|]; by eauto|by eauto]).
    all: intros y c [= <-] ? ?; congruence.
  - eexists. split; [reflexivity|]. split.
    + split; [by intros [e [=]]|by intros (? & ? & _)].
    + done.
Qed.

(** X9: without a usable client secret nothing is authorized or requested:
    when the configuration loads but [credentials.json] is missing,
    cannot be read or is rejected, [main] exits with one log line and
    leaves the files as they were. *)
Theorem main_needs_client_secret (env : Env) (st : State) (configuration : Configuration) :
  getConfiguration env "config.yaml" st = (Done (Val configuration), st) →
  (files st !! "credentials.json" = None ∨
   fault env "credentials.json" = CannotOpen →
   main env st
   = (Fatal, mkState (files st) (trace st ++ [Log "Unable to read client secret file"]))) ∧
  (∀ b, files st !! "credentials.json" = Some b →
        fault env "credentials.json" ≠ CannotOpen → configFromJSON env b = None →
   main env st
   = (Fatal, mkState (files st)
               (trace st ++ [Log "Unable to parse client secret file to config"]))).
Proof.
  intros Hcfg. split.
  - intros Hbad. unfold main. unfold mbind at 1, Run_bind at 1. rewrite Hcfg. run.
    destruct (files st !! "credentials.json") as [b|]; simpl; [|done].
    destruct Hbad as [Hn|Hf]; [done|]. by rewrite Hf.
  - intros b Hfile Hopen Hjson. unfold main. unfold mbind at 1, Run_bind at 1.
    rewrite Hcfg. run. rewrite Hfile.
    destruct (fault env "credentials.json"); simpl; by rewrite ?Hjson.
Qed.

Lemma main_needs_client_secret_witness :
  main sampleEnv emptyDisk = (Fatal, mkState ∅ [Log "Unable to read client secret file"]).
Proof.
  apply (main_needs_client_secret sampleEnv emptyDisk emptyConfiguration).
  - reflexivity.
  - left. reflexivity.
Defined.

(** ** The token store *)

(** X10: a saved token loads again.  When the token file can be written
    and the decoder reads back what the encoder wrote, then after
    [saveToken] the file holds the encoded token and a line feed, every
    other file is as before, [tokenFromFile] returns the token, and
    [getClient] hands out its client without entering the interactive
    flow. *)
Theorem saved_token_loads (env : Env) (config : OAuthConfig) (token : Token)
    (json : string) (st : State) :
  fault env "token.json" = NoFault →
  jsonEncodeToken env token = Some json →
  jsonDecodeToken env (json +:+ String Str.lf "") = Some token →
  (saveToken env "token.json" token st).1 = Done tt ∧
  files (saveToken env "token.json" token st).2 !! "token.json"
    = Some (json +:+ String Str.lf "") ∧
  (∀ other, other ≠ "token.json" →
     files (saveToken env "token.json" token st).2 !! other = files st !! other) ∧
  tokenFromFile env "token.json" (saveToken env "token.json" token st).2
    = (Done (Val token), (saveToken env "token.json" token st).2) ∧
  getClient env config (saveToken env "token.json" token st).2
    = (Done (mkClient config token), (saveToken env "token.json" token st).2).
Proof.
  intros Hf Henc Hdec.
  assert (saveToken env "token.json" token st
          = (Done tt,
             mkState (<["token.json" := json +:+ String Str.lf ""]> (files st))
               (trace st ++ [Stdout ("Saving credential file to: " +:+ "token.json"
                                      +:+ String Str.lf "")]))) as ->.
  { unfold saveToken. run. rewrite Hf, Henc. simpl. by rewrite insert_insert_eq. }
  assert (∀ st', files st' !! "token.json" = Some (json +:+ String Str.lf "") →
                 tokenFromFile env "token.json" st' = (Done (Val token), st')) as Hload.
  { intros st' Hfile. unfold tokenFromFile. run. by rewrite Hfile, Hf, Hdec. }
  cbn [fst snd files]. split_and!.
  - done.
  - by rewrite lookup_insert_eq.
  - intros other Hne. by rewrite lookup_insert_ne.
  - apply Hload. cbn [files]. by rewrite lookup_insert_eq.
  - unfold getClient. unfold mbind, Run_bind. rewrite Hload; [done|].
    cbn [files]. by rewrite lookup_insert_eq.
Qed.

Lemma saved_token_loads_witness :
  getClient sampleEnvRoundTrip sampleConfig
    (saveToken sampleEnvRoundTrip "token.json" sampleToken emptyDisk).2
  = (Done (mkClient sampleConfig sampleToken),
     (saveToken sampleEnvRoundTrip "token.json" sampleToken emptyDisk).2).
Proof.
  apply (saved_token_loads sampleEnvRoundTrip sampleConfig sampleToken "{}" emptyDisk);
    reflexivity.
Defined.



(** ** File names *)

(** X12: when the subject holds a contract token the message id plays no
    part in the prefix, so two messages of one date and one contract share
    their file names; when it holds none, different ids give different
    prefixes. *)
Theorem prefix_and_message_id (configuration : Configuration)
    (date id1 id2 subject : string) :
  (HasToken subject →
   filenamePrefix configuration date id1 subject
   = filenamePrefix configuration date id2 subject) ∧
  (¬ HasToken subject →
   filenamePrefix configuration date id1 subject
   = filenamePrefix configuration date id2 subject → id1 = id2).
Proof.
  split.
  - intros Hhas%FindStringSubmatch_HasToken. unfold filenamePrefix.
    destruct (FindStringSubmatch_cases subject) as [Hnil|[ds ->]]; done.
  - intros Hno. unfold filenamePrefix. rewrite (FindStringSubmatch_nil _ Hno). simpl.
    intros Heq. apply (inj (String.app date)) in Heq.
    by apply (inj (String.app "-")) in Heq.
Qed.

Lemma prefix_and_message_id_witness :
  filenamePrefix emptyConfiguration "2024-07-08" "m1" "A sua fatura EDP (contrato 100200300200)"
  = filenamePrefix emptyConfiguration "2024-07-08" "m2" "A sua fatura EDP (contrato 100200300200)".
Proof.
  apply (prefix_and_message_id emptyConfiguration "2024-07-08" "m1" "m2"
           "A sua fatura EDP (contrato 100200300200)").
  exists "A sua fatura EDP ", "(contrato 100200300200)", "100200300200".
  split; [reflexivity|]. split; [split; [discriminate|reflexivity]|].
  by exists "".
Defined.

(** The loop over the parts changes only the files named after a selected
    part of its list. *)
Lemma forEach_processPart_files (env : Env) (id filenamePrefix : string)
    (parts : list MessagePart) (st : State) (path : string) :
  files (forEach (processPart env id filenamePrefix) parts st).2 !! path
    ≠ files st !! path →
  ∃ part, part ∈ parts ∧ Selected part ∧
          path = filenamePrefix +:+ "-" +:+ Filename part.
Proof.
  revert st. induction parts as [|part parts IH]; intros st; [done|].
  simpl. unfold mbind, Run_bind.
  pose proof (processPart_cases env id filenamePrefix part st) as Hcases.
  cbv zeta in Hcases.
  destruct (processPart env id filenamePrefix part st) as [r mid] eqn:Hpart.
  assert (r = Done tt ∧
          (files mid !! path ≠ files st !! path →
           selectedb part = true ∧ path = filenamePrefix +:+ "-" +:+ Filename part))
    as [-> Hmid].
  { destruct (selectedb part); [|by simplify_eq].
    destruct (attachmentsGet env id (AttachmentId (Body part))) as [body|];
      [destruct (Base64.DecodeString (Data body));
       destruct (fault env (filenamePrefix +:+ "-" +:+ Filename part))|];
      simplify_eq; simpl; split; try done.
    all: intros Hne; split; [done|].
    all: destruct (decide (path = filenamePrefix +:+ "-" +:+ Filename part)); [done|].
    all: by rewrite lookup_insert_ne in Hne. }
  intros Hne.
  destruct (decide (files mid !! path = files st !! path)) as [Heq|Hch].
  - rewrite <- Heq in Hne. destruct (IH mid Hne) as (p & Hin & Hsel & ->).
    exists p. split_and!; [by right|done|done].
  - destruct (Hmid Hch) as [Hsel ->]. exists part.
    split_and!; [by left|by apply selectedb_spec|done].
Qed.

(** X13: a message only writes files named after its prefix: whatever
    happens, a path whose content differs after one trip through the loop
    over the messages is [{prefix}.eml] or [{prefix}-{filename}] for a
    selected top-level part of the message; when the detail of the message
    cannot be retrieved no file changes. *)
Theorem message_writes_only_its_files (env : Env) (configuration : Configuration)
    (messageIndex : nat) (m : Message) (st : State) (path : string) :
  files (processMessage env configuration messageIndex m st).2 !! path
    ≠ files st !! path →
  ∃ msg,
    messagesGet env (Id m) "full" = Some msg ∧
    (path = filenamePrefix configuration
              (formatDate (localZone env) (InternalDate msg)) (Id m)
              (scanHeaders (Headers (Payload msg))).2 +:+ ".eml" ∨
     ∃ part, part ∈ Parts (Payload msg) ∧ Selected part ∧
             path = filenamePrefix configuration
                      (formatDate (localZone env) (InternalDate msg)) (Id m)
                      (scanHeaders (Headers (Payload msg))).2
                    +:+ "-" +:+ Filename part).
Proof.
  unfold processMessage. run.
  destruct (messagesGet env (Id m) "full") as [msg|] eqn:Hfull; simpl; [|done].
  intros Hne. exists msg. split; [done|]. revert Hne.
  destruct (scanHeaders (Headers (Payload msg))) as [from subject]. run.
  set (prefix := filenamePrefix configuration
                   (formatDate (localZone env) (InternalDate msg)) (Id m) subject).
  match goal with |- context [forEach ?f ?l ?s] =>
    pose proof (forEach_processPart_files env (Id m) prefix (Parts (Payload msg)) s path)
      as Hparts;
    destruct (forEach_processPart env (Id m) prefix (Parts (Payload msg)) s)
      as (fs & evs & Hrun & _)
  end.
  rewrite Hrun in Hparts |- *. cbn [fst snd files] in Hparts |- *.
  assert (∀ fs', (fs' = fs ∨ ∃ data, fs' = <[prefix +:+ ".eml" := data]> fs) →
                 fs' !! path ≠ files st !! path →
                 path = prefix +:+ ".eml" ∨
                 ∃ part, part ∈ Parts (Payload msg) ∧ Selected part ∧
                         path = prefix +:+ "-" +:+ Filename part) as Hfinal.
  { intros fs' Hfs' Hne.
    destruct (decide (path = prefix +:+ ".eml")) as [|Hp]; [by left|]. right.
    apply Hparts. destruct Hfs' as [->|[data ->]]; [done|].
    by rewrite lookup_insert_ne in Hne. }
  destruct (messagesGet env (Id m) "raw") as [rawMsg|]; simpl.
  - unfold saveRawMessage. destruct (Base64.DecodeString (Raw rawMsg)); run;
      try destruct_fault; simpl; apply Hfinal; eauto.
  - apply Hfinal. by left.
Qed.

Lemma message_writes_only_its_files_witness :
  ∃ msg,
    messagesGet sampleEnv "m2" "full" = Some msg ∧
    ("2024-07-08-edp-100200300200.eml"
     = filenamePrefix emptyConfiguration
         (formatDate (localZone sampleEnv) (InternalDate msg)) "m2"
         (scanHeaders (Headers (Payload msg))).2 +:+ ".eml" ∨
     ∃ part, part ∈ Parts (Payload msg) ∧ Selected part ∧
             "2024-07-08-edp-100200300200.eml"
             = filenamePrefix emptyConfiguration
                 (formatDate (localZone sampleEnv) (InternalDate msg)) "m2"
                 (scanHeaders (Headers (Payload msg))).2
               +:+ "-" +:+ Filename part).
Proof.
  apply (message_writes_only_its_files sampleEnv emptyConfiguration 0
           (sampleDetail "m2") emptyDisk "2024-07-08-edp-100200300200.eml").
  vm_compute. discriminate.
Defined.

Lemma all_impl (f g : ascii → bool) (s : string) :
  (∀ c, f c = true → g c = true) → Str.all f s = true → Str.all g s = true.
Proof.
  intros Hfg. induction s as [|c s IH]; [done|]. simpl.
  intros [Hc Hs]%andb_true_iff. by rewrite (Hfg c Hc), IH.
Qed.

Lemma all_not_any (f g : ascii → bool) (s : string) :
  (∀ c, f c = true → g c = false) → Str.all f s = true → Str.any g s = false.
Proof.
  intros Hfg. induction s as [|c s IH]; [done|]. simpl.
  intros [Hc Hs]%andb_true_iff. by rewrite (Hfg c Hc), IH.
Qed.

(** X14: the name of a part that is fetched is made of digits and of the
    characters of [.pdf] only; in particular it holds no path separator,
    so the file written for it stays in the directory of its prefix. *)
Theorem invoice_filename_is_plain (filename : string) :
  invoiceFilenameRegex_MatchString filename = true →
  Str.all isInvoiceChar filename = true ∧ Str.any isSlash filename = false.
Proof.
  intros (ds & [_ Hds] & ->)%invoiceFilenameRegex_MatchString_spec.
  assert (Str.all isInvoiceChar (ds +:+ ".pdf") = true) as Hall.
  { rewrite all_app. apply andb_true_iff. split; [|reflexivity].
    eapply all_impl; [|exact Hds]. intros c Hc. unfold isInvoiceChar. by rewrite Hc. }
  split; [done|]. eapply all_not_any; [|exact Hall].
  intros c Hc. unfold isSlash. apply bool_decide_eq_false. intros ->. done.
Qed.

Lemma invoice_filename_is_plain_witness :
  Str.all isInvoiceChar "187008571923.pdf" = true ∧
  Str.any isSlash "187008571923.pdf" = false.
Proof. apply (invoice_filename_is_plain "187008571923.pdf"). reflexivity. Defined.

(** ** The whole run *)

Lemma searchParams_entries :
  map_to_list searchParams = [("from", "faturaedp@edp.pt"); ("has", "attachment")].
Proof. reflexivity. Qed.

(** X15: a run that starts well is the scan.  When the configuration
    loads, the client secret is read and accepted, the saved token loads
    and the Gmail service is created, [main] does nothing before the scan
    (no authorization, no output, no file written) and runs the scan with
    no continuation token, the counter 0 and one fixed query for all its
    pages, which is [from:faturaedp@edp.pt has:attachment] or the same
    two terms in the other order, as the range over the map falls; when
    the service cannot be created it exits instead. *)
Theorem main_is_the_scan (env : Env) (st : State) (configuration : Configuration)
    (b : string) (config : OAuthConfig) (tok : Token) :
  getConfiguration env "config.yaml" st = (Done (Val configuration), st) →
  ReadFile env "credentials.json" st = (Done (Val b), st) →
  configFromJSON env b = Some config →
  tokenFromFile env "token.json" st = (Done (Val tok), st) →
  rangeOrder env searchParams ≡ₚ map_to_list searchParams →
  (newService env = false →
   main env st
   = (Fatal, mkState (files st) (trace st ++ [Log "Unable to retrieve Gmail client"]))) ∧
  (newService env = true →
   ∃ q, (q = "from:faturaedp@edp.pt has:attachment" ∨
         q = "has:attachment from:faturaedp@edp.pt") ∧
        main env st = scan env configuration q (listResponses env) "" 0 st).
Proof.
  intros Hcfg Hcred Hjson Htok Hperm.
  assert (main env st
          = (if newService env
             then scan env configuration (encodeQueryIn (rangeOrder env searchParams))
                    (listResponses env) "" 0
             else fatalf "Unable to retrieve Gmail client") st) as Hmain.
  { unfold main, getClient.
    unfold mbind at 1, Run_bind at 1. rewrite Hcfg.
    unfold mbind at 1, Run_bind at 1. rewrite Hcred. rewrite Hjson.
    unfold mbind at 1, Run_bind at 1. unfold mbind at 1, Run_bind at 1.
    rewrite Htok. unfold mret, Run_ret. done. }
  split.
  - intros Hsvc. rewrite Hmain, Hsvc. done.
  - intros Hsvc. rewrite Hmain, Hsvc.
    exists (encodeQueryIn (rangeOrder env searchParams)). split; [|done].
    rewrite searchParams_entries in Hperm. symmetry in Hperm.
    apply Permutation_length_2_inv in Hperm as [->| ->]; [by left|by right].
Qed.

Lemma main_is_the_scan_witness :
  ∃ q, (q = "from:faturaedp@edp.pt has:attachment" ∨
        q = "has:attachment from:faturaedp@edp.pt") ∧
       main sampleEnv sampleDisk
       = scan sampleEnv emptyConfiguration q (listResponses sampleEnv) "" 0 sampleDisk.
Proof.
  destruct (main_is_the_scan sampleEnv sampleDisk emptyConfiguration "{}"
              sampleConfig sampleToken) as [_ H]; try reflexivity.
  apply H. reflexivity.
Defined.
